(** * oyster: packages/common/src/actions/account.ts

    A shallow embedding of the account and metadata instruction builders,
    of the metadata schema table and of the binary codec the builders and
    [decodeMetadata] go through, with the properties checked against them. *)

From Stdlib Require Import ZArith Lia.
From Stdlib Require Import Strings.Byte.
From stdpp Require Import base option list strings gmap.

Local Open Scope Z_scope.
Local Open Scope string_scope.
Local Open Scope list_scope.

(** ** Errors and results *)

(** The error taxonomy of the module.  In the source these are thrown
    exceptions; here every fallible operation returns a [Result]. *)
Inductive Error :=
| MalformedInput        (* decode: not enough bytes for a declared field *)
| EncodeError           (* encode: value does not fit the wire type *)
| SchemaLookupError     (* class not registered in the schema *)
| DerivationError       (* no program-derived address for the seeds *)
| InvalidPublicKey      (* new PublicKey(...) rejected its input *)
| TypeError             (* a property of the wrong JavaScript type *)
| RangeError.           (* a number a library call cannot write *)

Inductive Result (A : Type) :=
| Ok (a : A)
| Err (e : Error).
Arguments Ok {A} a.
Arguments Err {A} e.

#[global] Instance Result_ret : MRet Result := fun _ a => Ok a.
#[global] Instance Result_bind : MBind Result := fun _ _ f m =>
  match m with Ok a => f a | Err e => Err e end.
#[global] Instance Result_fmap : FMap Result := fun _ _ f m =>
  match m with Ok a => Ok (f a) | Err e => Err e end.

#[global] Instance Error_eq_dec : EqDecision Error.
Proof. solve_decision. Defined.

(** ** Bytes *)

Definition byte_of_Z (z : Z) : byte :=
  default x00 (Byte.of_N (Z.to_N (z mod 256))).

Definition Z_of_byte (b : byte) : Z := Z.of_N (Byte.to_N b).

#[global] Instance byte_eq_dec : EqDecision byte.
Proof. intros a b. destruct (Byte.byte_eq_dec a b); [left | right]; assumption. Defined.

(** [Buffer.from(str)]: the UTF-8 bytes of a string.  A JavaScript string
    is represented throughout by the text's UTF-8 byte sequence, so a
    Rocq [string] is a well-formed text and its length is its byte
    length. *)
Definition Buffer_from (s : string) : list byte := String.list_byte_of_string s.

(** ** Constants (account.ts, lines 20-29) *)

Definition MAX_NAME_LENGTH : Z := 32.

Definition MAX_SYMBOL_LENGTH : Z := 10.

Definition MAX_URI_LENGTH : Z := 200.

Definition MAX_METADATA_LEN : Z :=
  32 + MAX_NAME_LENGTH + MAX_SYMBOL_LENGTH + MAX_URI_LENGTH + 200.

Definition MAX_OWNER_LEN : Z := 32 + 32.

(** ** Public keys

    [PublicKey] is web3.js's class.  A key is represented by the 32-byte
    buffer its [toBuffer] returns.  The constructor reads its argument as
    a big-endian number, rejects one wider than 32 bytes, and [toBuffer]
    pads the number back to 32 bytes. *)
Record PublicKey := mkPublicKey { toBuffer : list byte }.

#[global] Instance PublicKey_eq_dec : EqDecision PublicKey.
Proof. solve_decision. Defined.

Fixpoint strip_zeros (b : list byte) : list byte :=
  match b with
  | [] => []
  | a :: r => if decide (a = x00) then strip_zeros r else b
  end.

Definition new_PublicKey (value : list byte) : Result PublicKey :=
  let bn := strip_zeros value in
  if decide (length bn ≤ 32)%nat
  then Ok (mkPublicKey (replicate (32 - length bn) x00 ++ bn))
  else Err InvalidPublicKey.

(** ** JavaScript values and plain objects *)

Inductive JsValue :=
| JUndefined
| JNumber (n : Z)
| JBoolean (b : bool)
| JString (s : string)
| JBuffer (b : list byte)
| JPublicKey (k : PublicKey).   (* a PublicKey object: not a buffer, no length *)

#[global] Instance JsValue_eq_dec : EqDecision JsValue.
Proof. solve_decision. Defined.

(** A plain object: property name to value.  Reading a property that was
    never set gives [undefined]. *)
Definition prop (o : gmap string JsValue) (k : string) : JsValue :=
  default JUndefined (o !! k).

(** ** The schema table *)

Inductive FieldType :=
| U8                              (* 'u8' *)
| StringT                         (* 'string' *)
| FixedArray (n : nat)            (* [n] *)
| OptionT (type : FieldType).     (* { kind: 'option', type } *)

Record StructSchema := { kind : string; fields : list (string * FieldType) }.

Inductive ClassType :=
| CreateMetadataArgs_class
| UpdateMetadataArgs_class
| Metadata_class
| NameSymbolTuple_class.

#[global] Instance ClassType_eq_dec : EqDecision ClassType.
Proof. solve_decision. Defined.

(** account.ts, lines 254-302. *)
Definition SCHEMA : list (ClassType * StructSchema) :=
  [ (CreateMetadataArgs_class,
     {| kind := "struct";
        fields := [ ("instruction", U8);
                    ("allow_duplicates", U8);
                    ("name", StringT);
                    ("symbol", StringT);
                    ("uri", StringT) ] |});
    (UpdateMetadataArgs_class,
     {| kind := "struct";
        fields := [ ("instruction", U8);
                    ("uri", StringT);
                    ("non_unique_specific_update_authority", U8) ] |});
    (Metadata_class,
     {| kind := "struct";
        fields := [ ("allow_duplicates", OptionT U8);
                    ("mint", FixedArray 32);
                    ("name", StringT);
                    ("symbol", StringT);
                    ("uri", StringT) ] |});
    (NameSymbolTuple_class,
     {| kind := "struct";
        fields := [ ("update_authority", FixedArray 32);
                    ("metadata", FixedArray 32) ] |}) ].

(** [schema.get(classType)] on the [Map]. *)
Fixpoint schema_get (schema : list (ClassType * StructSchema)) (c : ClassType)
  : option StructSchema :=
  match schema with
  | [] => None
  | (c', s) :: rest => if decide (c' = c) then Some s else schema_get rest c
  end.

(** ** The record classes (account.ts, lines 195-252) *)

Module CreateMetadataArgs.
Record t := mk {
  instruction : Z;
  allow_duplicates : bool;
  name : string;
  symbol : string;
  uri : string }.

(** The field initialisers set [instruction = 0] and
    [allow_duplicates = false]; the constructor copies the rest. *)
Definition new (name symbol uri : string) : t :=
  {| instruction := 0; allow_duplicates := false;
     name := name; symbol := symbol; uri := uri |}.

(** [o[k]]: the members by name, [undefined] for any other name. *)
Definition get (o : t) (k : string) : JsValue :=
  if decide (k = "instruction") then JNumber (instruction o)
  else if decide (k = "allow_duplicates") then JBoolean (allow_duplicates o)
  else if decide (k = "name") then JString (name o)
  else if decide (k = "symbol") then JString (symbol o)
  else if decide (k = "uri") then JString (uri o)
  else JUndefined.
End CreateMetadataArgs.

Module UpdateMetadataArgs.
Record t := mk {
  instruction : Z;
  uri : string;
  non_unique_specific_update_authority : Z }.

Definition new (uri : string) : t :=
  {| instruction := 1; uri := uri;
     non_unique_specific_update_authority := 0 |}.

Definition get (o : t) (k : string) : JsValue :=
  if decide (k = "instruction") then JNumber (instruction o)
  else if decide (k = "uri") then JString (uri o)
  else if decide (k = "non_unique_specific_update_authority")
       then JNumber (non_unique_specific_update_authority o)
  else JUndefined.
End UpdateMetadataArgs.

Definition as_string (v : JsValue) : Result string :=
  match v with JString s => Ok s | _ => Err TypeError end.

(** [new PublicKey(v)] for a property declared as a [Buffer].  With
    [undefined] the constructor reads the number 0 and gives the all-zero
    key; the other values are outside the declared type. *)
Definition as_key (v : JsValue) : Result PublicKey :=
  match v with
  | JBuffer b => new_PublicKey b
  | JUndefined => Ok (mkPublicKey (replicate 32 x00))
  | _ => Err TypeError
  end.

Module Metadata.
Record t := mk {
  updateAuthority : option PublicKey;
  mint : PublicKey;
  name : string;
  symbol : string;
  uri : string;
  extended : option JsValue }.

(** The constructor: [args] is the object handed to [new Metadata(...)];
    the declared types of its properties are checked on the way in.
    [updateAuthority] is [args.updateAuthority && new PublicKey(...)];
    [extended] is not assigned. *)
Definition new (args : gmap string JsValue) : Result t :=
  updateAuthority ← match prop args "updateAuthority" with
                     | JUndefined => Ok None
                     | v => Some <$> as_key v
                     end;
  mint ← as_key (prop args "mint");
  name ← as_string (prop args "name");
  symbol ← as_string (prop args "symbol");
  uri ← as_string (prop args "uri");
  Ok {| updateAuthority := updateAuthority; mint := mint; name := name;
        symbol := symbol; uri := uri; extended := None |}.

(** [o[k]].  The constructor stored [PublicKey] objects in [mint] and
    [updateAuthority], and that is what these members read as. *)
Definition get (o : t) (k : string) : JsValue :=
  if decide (k = "updateAuthority")
  then from_option JPublicKey JUndefined (updateAuthority o)
  else if decide (k = "mint") then JPublicKey (mint o)
  else if decide (k = "name") then JString (name o)
  else if decide (k = "symbol") then JString (symbol o)
  else if decide (k = "uri") then JString (uri o)
  else if decide (k = "extended") then default JUndefined (extended o)
  else JUndefined.
End Metadata.

Module NameSymbolTuple.
Record t := mk {
  updateAuthority : PublicKey;
  metadata : PublicKey }.

Definition new (args : gmap string JsValue) : Result t :=
  updateAuthority ← as_key (prop args "updateAuthority");
  metadata ← as_key (prop args "metadata");
  Ok {| updateAuthority := updateAuthority; metadata := metadata |}.

(** [o[k]]: both members are [PublicKey] objects. *)
Definition get (o : t) (k : string) : JsValue :=
  if decide (k = "updateAuthority") then JPublicKey (updateAuthority o)
  else if decide (k = "metadata") then JPublicKey (metadata o)
  else JUndefined.
End NameSymbolTuple.

(** An instance of one of the four classes: what [serialize] receives and
    [deserializeBorsh] returns. *)
Inductive Instance :=
| OfCreateMetadataArgs (v : CreateMetadataArgs.t)
| OfUpdateMetadataArgs (v : UpdateMetadataArgs.t)
| OfMetadata (v : Metadata.t)
| OfNameSymbolTuple (v : NameSymbolTuple.t).

(** [obj.constructor] *)
Definition constructor (obj : Instance) : ClassType :=
  match obj with
  | OfCreateMetadataArgs _ => CreateMetadataArgs_class
  | OfUpdateMetadataArgs _ => UpdateMetadataArgs_class
  | OfMetadata _ => Metadata_class
  | OfNameSymbolTuple _ => NameSymbolTuple_class
  end.

(** [obj[fieldName]] *)
Definition get_field (obj : Instance) (k : string) : JsValue :=
  match obj with
  | OfCreateMetadataArgs v => CreateMetadataArgs.get v k
  | OfUpdateMetadataArgs v => UpdateMetadataArgs.get v k
  | OfMetadata v => Metadata.get v k
  | OfNameSymbolTuple v => NameSymbolTuple.get v k
  end.

(** [new classType(args)].  The two argument classes are only ever built
    by the instruction builders, never from a decoded object: their
    constructors read [name], [symbol] and [uri] and keep the opcode of
    the field initialiser. *)
Definition construct (c : ClassType) (args : gmap string JsValue) : Result Instance :=
  match c with
  | CreateMetadataArgs_class =>
      name ← as_string (prop args "name");
      symbol ← as_string (prop args "symbol");
      uri ← as_string (prop args "uri");
      Ok (OfCreateMetadataArgs (CreateMetadataArgs.new name symbol uri))
  | UpdateMetadataArgs_class =>
      uri ← as_string (prop args "uri");
      Ok (OfUpdateMetadataArgs (UpdateMetadataArgs.new uri))
  | Metadata_class => OfMetadata <$> Metadata.new args
  | NameSymbolTuple_class => OfNameSymbolTuple <$> NameSymbolTuple.new args
  end.

(** ** The binary writer *)

(** Modelled from the spec: the writer half of the borsh codec behind
    [serialize], which is imported and not part of this file's source.
    [u8] is one byte. *)
Definition writeU8 (n : Z) : Result (list byte) :=
  if decide (0 ≤ n < 256) then Ok [byte_of_Z n] else Err EncodeError.

(** Modelled from the spec: a 4-byte little-endian u32 (the length prefix
    of a string), of the borsh writer.  The value is taken modulo 2^32. *)
Definition writeU32 (n : Z) : list byte :=
  let w := n mod 2 ^ 32 in
  [ byte_of_Z w; byte_of_Z (w / 2 ^ 8); byte_of_Z (w / 2 ^ 16); byte_of_Z (w / 2 ^ 24) ].

(** Modelled from the spec: a string is its length prefix followed by its
    raw UTF-8 bytes, with no terminator and no padding (borsh writer). *)
Definition writeString (s : string) : list byte :=
  let b := Buffer_from s in
  writeU32 (Z.of_nat (length b)) ++ b.

(** Modelled from the spec: the field encoder of borsh's [serialize].
    Fields are written by wire type; a fixed array of [n] bytes fails
    unless the value has exactly [n] bytes, and a [PublicKey] object is
    no such value; an option writes one presence byte and then the value
    when there is one.  A boolean stored in a
    [u8] field is written as the number it converts to. *)
Fixpoint serializeField (fieldType : FieldType) (value : JsValue) : Result (list byte) :=
  match fieldType with
  | U8 =>
      match value with
      | JNumber n => writeU8 n
      | JBoolean b => writeU8 (if b then 1 else 0)
      | _ => Err EncodeError
      end
  | StringT =>
      match value with
      | JString s => Ok (writeString s)
      | _ => Err EncodeError
      end
  | FixedArray n =>
      match value with
      | JBuffer b => if decide (length b = n) then Ok b else Err EncodeError
      | _ => Err EncodeError
      end
  | OptionT type =>
      match value with
      | JUndefined => Ok [x00]
      | _ => b ← serializeField type value; Ok (x01 :: b)
      end
  end.

(** Modelled from the spec: the struct encoder of borsh's [serialize]:
    the fields of the schema entry, in declared order, each read off the
    object by name. *)
Fixpoint serializeStruct (fs : list (string * FieldType)) (obj : Instance)
  : Result (list byte) :=
  match fs with
  | [] => Ok []
  | (fieldName, fieldType) :: rest =>
      b ← serializeField fieldType (get_field obj fieldName);
      bs ← serializeStruct rest obj;
      Ok (b ++ bs)
  end.

(** Modelled from the spec: borsh's [serialize(schema, obj)], which looks
    the object's class up in the schema and writes its fields into one
    contiguous buffer with no type tag. *)
Definition serialize (schema : list (ClassType * StructSchema)) (obj : Instance)
  : Result (list byte) :=
  match schema_get schema (constructor obj) with
  | None => Err SchemaLookupError
  | Some s =>
      if decide (kind s = "struct") then serializeStruct (fields s) obj
      else Err SchemaLookupError
  end.

(** ** The binary reader *)

(** A reader is a buffer and a cursor that only moves right; it is
    represented by the bytes not yet read. *)
Definition Reader (A : Type) : Type := list byte → Result (A * list byte).

#[global] Instance Reader_ret : MRet Reader := fun _ a buf => Ok (a, buf).
#[global] Instance Reader_bind : MBind Reader := fun _ _ f m buf =>
  match m buf with
  | Ok (a, buf') => f a buf'
  | Err e => Err e
  end.
#[global] Instance Reader_fmap : FMap Reader := fun _ _ f m buf =>
  match m buf with
  | Ok (a, buf') => Ok (f a, buf')
  | Err e => Err e
  end.

(** Modelled from the spec: the reader half of the borsh codec, used by
    [deserializeBorsh] of utils/borsh, which is not part of this file's
    source.  Reading past the end of the buffer is [MalformedInput]. *)
Definition readU8 : Reader Z := fun buf =>
  match buf with
  | [] => Err MalformedInput
  | b :: rest => Ok (Z_of_byte b, rest)
  end.

(** Modelled from the spec: [len] raw bytes, or [MalformedInput] when
    fewer remain (borsh reader). *)
Definition readBuffer (len : nat) : Reader (list byte) := fun buf =>
  if decide (len ≤ length buf)%nat then Ok (take len buf, drop len buf)
  else Err MalformedInput.

(** Modelled from the spec: a little-endian u32 (borsh reader). *)
Definition readU32 : Reader Z :=
  b0 ← readU8; b1 ← readU8; b2 ← readU8; b3 ← readU8;
  mret (b0 + b1 * 2 ^ 8 + b2 * 2 ^ 16 + b3 * 2 ^ 24).

(** Modelled from the spec: a length-prefixed UTF-8 string (borsh
    reader). *)
Definition readString : Reader string :=
  len ← readU32;
  b ← readBuffer (Z.to_nat len);
  mret (String.string_of_list_byte b).

(** Modelled from the spec: the field decoder of [deserializeBorsh]
    (utils/borsh), the inverse of the field encoder.  An option is a
    presence byte followed by the value when the byte is not zero, and
    [undefined] otherwise. *)
Fixpoint deserializeField (fieldType : FieldType) : Reader JsValue :=
  match fieldType with
  | U8 => JNumber <$> readU8
  | StringT => JString <$> readString
  | FixedArray n => JBuffer <$> readBuffer n
  | OptionT type =>
      option ← readU8;
      if decide (option = 0) then mret JUndefined else deserializeField type
  end.

(** Modelled from the spec: the struct decoder of [deserializeBorsh]
    (utils/borsh): the declared fields are read left to right into a
    plain object, [result[fieldName] = value]. *)
Fixpoint deserializeFields (fs : list (string * FieldType)) (result : gmap string JsValue)
  : Reader (gmap string JsValue) :=
  match fs with
  | [] => mret result
  | (fieldName, fieldType) :: rest =>
      value ← deserializeField fieldType;
      deserializeFields rest (<[fieldName := value]> result)
  end.

(** Modelled from the spec: [deserializeBorsh(schema, classType, buffer)]
    of utils/borsh, which is not part of this file's source: decode the
    fields of the class's schema entry from the start of the buffer,
    build the class from them, and ignore whatever bytes are left. *)
Definition deserializeBorsh (schema : list (ClassType * StructSchema))
    (classType : ClassType) (buffer : list byte) : Result Instance :=
  match schema_get schema classType with
  | None => Err SchemaLookupError
  | Some s =>
      if decide (kind s = "struct") then
        '(result, _) ← deserializeFields (fields s) ∅ buffer;
        construct classType result
      else Err SchemaLookupError
  end.

(** account.ts, lines 304-306.  The cast [as Metadata] is the match on
    the class of the instance. *)
Definition decodeMetadata (buffer : list byte) : Result Metadata.t :=
  i ← deserializeBorsh SCHEMA Metadata_class buffer;
  match i with
  | OfMetadata m => Ok m
  | _ => Err TypeError
  end.

(** ** Accounts, instructions and the mutable arrays *)

(** web3.js's [Account]: a key pair. *)
Record Account := { publicKey : PublicKey; secretKey : list byte }.

(** One entry of an instruction's [keys]. *)
Record AccountMeta := { pubkey : PublicKey; isSigner : bool; isWritable : bool }.

(** A [TransactionInstruction].  The instructions that this file builds
    itself carry their keys, program id and payload; those that
    [SystemProgram] and spl-token's [Token] return are kept as the call
    that returned them. *)
Inductive TransactionInstruction :=
| SystemProgram_createAccount
    (fromPubkey newAccountPubkey : PublicKey) (lamports space : Z) (programId : PublicKey)
| Token_createInitAccountInstruction (programId mint account owner : PublicKey)
| Token_createCloseAccountInstruction
    (programId account dest owner : PublicKey) (multiSigners : list Account)
| Token_createInitMintInstruction
    (programId mint : PublicKey) (decimals : Z) (mintAuthority freezeAuthority : PublicKey)
| new_TransactionInstruction
    (keys : list AccountMeta) (programId : PublicKey) (data : list byte).

(** The numbers that the layouts of the two libraries can write: [ns64]
    writes a signed 64-bit integer and [u8] one byte; both throw a
    [RangeError] on any other number. *)
Definition ns64 (n : Z) : Prop := (- 2 ^ 63 ≤ n < 2 ^ 63)%Z.
Definition u8 (n : Z) : Prop := (0 ≤ n < 256)%Z.

#[global] Instance ns64_dec (n : Z) : Decision (ns64 n) :=
  and_dec (decide (- 2 ^ 63 ≤ n)%Z) (decide (n < 2 ^ 63)%Z).
#[global] Instance u8_dec (n : Z) : Decision (u8 n) :=
  and_dec (decide (0 ≤ n)%Z) (decide (n < 256)%Z).

(** web3.js's [SystemProgram.createAccount]: the call encodes [lamports]
    and [space] as [ns64] when it builds the instruction, and so throws
    when one of them does not fit. *)
Module SystemProgram.
Definition createAccount (fromPubkey newAccountPubkey : PublicKey) (lamports space : Z)
    (programId : PublicKey) : Result TransactionInstruction :=
  if decide (ns64 lamports ∧ ns64 space)
  then Ok (SystemProgram_createAccount fromPubkey newAccountPubkey lamports space
             programId)
  else Err RangeError.
End SystemProgram.

(** spl-token's [Token], the static builders this file calls.  The init
    and close instructions of an account carry keys only;
    [createInitMintInstruction] encodes [decimals] as [u8] and throws
    when it does not fit. *)
Module Token.
Definition createInitAccountInstruction (programId mint account owner : PublicKey)
  : Result TransactionInstruction :=
  Ok (Token_createInitAccountInstruction programId mint account owner).

Definition createCloseAccountInstruction (programId account dest owner : PublicKey)
    (multiSigners : list Account) : Result TransactionInstruction :=
  Ok (Token_createCloseAccountInstruction programId account dest owner multiSigners).

Definition createInitMintInstruction (programId mint : PublicKey) (decimals : Z)
    (mintAuthority freezeAuthority : PublicKey) : Result TransactionInstruction :=
  if decide (u8 decimals)
  then Ok (Token_createInitMintInstruction programId mint decimals mintAuthority
             freezeAuthority)
  else Err RangeError.
End Token.

(** spl-token's [AccountInfo], the fields this file reads. *)
Module AccountInfo.
Record t := mk { mint : PublicKey; owner : PublicKey; amount : Z; isNative : bool }.
End AccountInfo.

(** models/account's [TokenAccount], the fields this file reads. *)
Module TokenAccount.
Record t := mk { pubkey : PublicKey; info : AccountInfo.t }.
End TokenAccount.

(** contexts/accounts' [cache]: [byParser(TokenAccountParser)] lists the
    ids registered with the token-account parser, in the cache's own
    order, and [get(id)] is the account stored under an id, if any. *)
Record AccountCache := {
  byParser_TokenAccountParser : list string;
  cache_get : string → option TokenAccount.t }.

(** Everything the builders can read or write: the arrays the caller
    passes by reference (two arrays passed under the same reference are
    the same array), the number of key pairs generated so far, and the
    account cache. *)
Record Store := mkStore {
  instructionArrays : gmap nat (list TransactionInstruction);
  signerArrays : gmap nat (list Account);
  generated : nat;
  cache : AccountCache }.

(** A computation over the store that may throw; what was written before
    the throw stays written. *)
Definition M (A : Type) : Type := Store → Result A * Store.

#[global] Instance M_ret : MRet M := fun _ a σ => (Ok a, σ).
#[global] Instance M_bind : MBind M := fun _ _ f m σ =>
  match m σ with
  | (Ok a, σ') => f a σ'
  | (Err e, σ') => (Err e, σ')
  end.

Definition lift {A} (r : Result A) : M A := fun σ => (r, σ).

(** Reading the module-level [cache]. *)
Definition read_cache : M AccountCache := fun σ => (Ok (cache σ), σ).

(** [instructions.push(i)] *)
Definition push_instruction (instructions : nat) (i : TransactionInstruction) : M unit :=
  fun σ =>
    match instructionArrays σ !! instructions with
    | Some l =>
        (Ok (), mkStore (<[instructions := l ++ [i]]> (instructionArrays σ))
                        (signerArrays σ) (generated σ) (cache σ))
    | None => (Err TypeError, σ)
    end.

(** [instructions.push(call)] where the call that builds the instruction
    may throw: the array is looked up first, the call is made next, and
    what it returns is pushed. *)
Definition push_call (instructions : nat) (call : Result TransactionInstruction)
  : M unit :=
  fun σ =>
    match instructionArrays σ !! instructions, call with
    | Some _, Ok i => push_instruction instructions i σ
    | Some _, Err e => (Err e, σ)
    | None, _ => (Err TypeError, σ)
    end.

(** [signers.push(a)] *)
Definition push_signer (signers : nat) (a : Account) : M unit :=
  fun σ =>
    match signerArrays σ !! signers with
    | Some l =>
        (Ok (), mkStore (instructionArrays σ) (<[signers := l ++ [a]]> (signerArrays σ))
                        (generated σ) (cache σ))
    | None => (Err TypeError, σ)
    end.

(** What this file imports and only uses: the well-known addresses of
    utils/ids and web3.js, the layout sizes of spl-token, base58
    printing, program-address derivation and key-pair generation. *)
Record Externals := {
  TOKEN_PROGRAM_ID : PublicKey;
  WRAPPED_SOL_MINT : PublicKey;
  SPL_ASSOCIATED_TOKEN_ACCOUNT_PROGRAM_ID : PublicKey;
  SystemProgram_programId : PublicKey;
  SYSVAR_RENT_PUBKEY : PublicKey;
  programIds_metadata : PublicKey;
  AccountLayout_span : Z;
  MintLayout_span : Z;
  toBase58 : PublicKey → string;
  (* PublicKey.findProgramAddress(seeds, programId): the address and its
     bump, or no address at all *)
  findProgramAddress : list (list byte) → PublicKey → Result (PublicKey * Z);
  (* the n-th key pair that new Account() generates *)
  generateKeypair : nat → Account }.

Definition DEFAULT_TEMP_MEM_SPACE : Z := 65548.

Section Builders.
Variable E : Externals.

(** [new Account()] *)
Definition new_Account : M Account := fun σ =>
  (Ok (generateKeypair E (generated σ)),
   mkStore (instructionArrays σ) (signerArrays σ) (S (generated σ)) (cache σ)).

(** account.ts, lines 74-96. *)
Definition createTempMemoryAccount (instructions : nat) (payer : PublicKey)
    (signers : nat) (owner : PublicKey) (space : option Z) : M PublicKey :=
  let space := default DEFAULT_TEMP_MEM_SPACE space in
  account ← new_Account;
  push_call instructions
    (SystemProgram.createAccount payer (publicKey account) 0 space owner);;
  push_signer signers account;;
  mret (publicKey account).

(** account.ts, lines 98-118. *)
Definition createUninitializedMint (instructions : nat) (payer : PublicKey)
    (amount : Z) (signers : nat) : M PublicKey :=
  account ← new_Account;
  push_call instructions
    (SystemProgram.createAccount payer (publicKey account) amount
       (MintLayout_span E) (TOKEN_PROGRAM_ID E));;
  push_signer signers account;;
  mret (publicKey account).

(** account.ts, lines 120-140. *)
Definition createUninitializedAccount (instructions : nat) (payer : PublicKey)
    (amount : Z) (signers : nat) : M PublicKey :=
  account ← new_Account;
  push_call instructions
    (SystemProgram.createAccount payer (publicKey account) amount
       (AccountLayout_span E) (TOKEN_PROGRAM_ID E));;
  push_signer signers account;;
  mret (publicKey account).

(** account.ts, lines 31-70. *)
Definition ensureSplAccount (instructions cleanupInstructions : nat)
    (toCheck : TokenAccount.t) (payer : PublicKey) (amount : Z) (signers : nat)
  : M PublicKey :=
  if negb (AccountInfo.isNative (TokenAccount.info toCheck))
  then mret (TokenAccount.pubkey toCheck)
  else
    account ← createUninitializedAccount instructions payer amount signers;
    push_call instructions
      (Token.createInitAccountInstruction
         (TOKEN_PROGRAM_ID E) (WRAPPED_SOL_MINT E) account payer);;
    push_call cleanupInstructions
      (Token.createCloseAccountInstruction
         (TOKEN_PROGRAM_ID E) account payer payer []);;
    mret account.

(** account.ts, lines 142-193. *)
Definition createAssociatedTokenAccountInstruction (instructions : nat)
    (associatedTokenAddress payer walletAddress splTokenMintAddress : PublicKey)
  : M unit :=
  let keys :=
    [ {| pubkey := payer; isSigner := true; isWritable := true |};
      {| pubkey := associatedTokenAddress; isSigner := false; isWritable := true |};
      {| pubkey := walletAddress; isSigner := false; isWritable := false |};
      {| pubkey := splTokenMintAddress; isSigner := false; isWritable := false |};
      {| pubkey := SystemProgram_programId E; isSigner := false; isWritable := false |};
      {| pubkey := TOKEN_PROGRAM_ID E; isSigner := false; isWritable := false |};
      {| pubkey := SYSVAR_RENT_PUBKEY E; isSigner := false; isWritable := false |} ] in
  push_instruction instructions
    (new_TransactionInstruction keys (SPL_ASSOCIATED_TOKEN_ACCOUNT_PROGRAM_ID E) []).

(** account.ts, lines 308-335. *)
Definition createMint (instructions : nat) (payer : PublicKey) (mintRentExempt : Z)
    (decimals : Z) (owner freezeAuthority : PublicKey) (signers : nat) : M PublicKey :=
  account ← createUninitializedMint instructions payer mintRentExempt signers;
  push_call instructions
    (Token.createInitMintInstruction
       (TOKEN_PROGRAM_ID E) account decimals owner freezeAuthority);;
  mret account.

(** account.ts, lines 336-397.  Each [await] is a step of the same
    sequential computation. *)
Definition updateMetadata (symbol name uri : string)
    (mintKey updateAuthority : PublicKey) (instructions signers : nat) : M unit :=
  let metadataProgramId := programIds_metadata E in
  '(metadataAccount, _) ← lift (findProgramAddress E
      [ Buffer_from "metadata"; toBuffer metadataProgramId; toBuffer mintKey ]
      metadataProgramId);
  '(metadataOwnerAccount, _) ← lift (findProgramAddress E
      [ Buffer_from "metadata"; toBuffer metadataProgramId;
        Buffer_from name; Buffer_from symbol ]
      metadataProgramId);
  let value := UpdateMetadataArgs.new uri in
  data ← lift (serialize SCHEMA (OfUpdateMetadataArgs value));
  let keys :=
    [ {| pubkey := metadataAccount; isSigner := false; isWritable := true |};
      {| pubkey := updateAuthority; isSigner := true; isWritable := false |};
      {| pubkey := metadataOwnerAccount; isSigner := false; isWritable := false |} ] in
  push_instruction instructions
    (new_TransactionInstruction keys metadataProgramId data).

(** account.ts, lines 399-487. *)
Definition createMetadata (symbol name uri : string)
    (mintKey mintAuthorityKey : PublicKey) (instructions : nat)
    (payer updateAuthority : PublicKey) (signers : nat) : M unit :=
  let metadataProgramId := programIds_metadata E in
  '(metadataAccount, _) ← lift (findProgramAddress E
      [ Buffer_from "metadata"; toBuffer metadataProgramId; toBuffer mintKey ]
      metadataProgramId);
  '(metadataOwnerAccount, _) ← lift (findProgramAddress E
      [ Buffer_from "metadata"; toBuffer metadataProgramId;
        Buffer_from name; Buffer_from symbol ]
      metadataProgramId);
  let value := CreateMetadataArgs.new name symbol uri in
  data ← lift (serialize SCHEMA (OfCreateMetadataArgs value));
  let keys :=
    [ {| pubkey := metadataOwnerAccount; isSigner := false; isWritable := true |};
      {| pubkey := metadataAccount; isSigner := false; isWritable := true |};
      {| pubkey := mintKey; isSigner := false; isWritable := false |};
      {| pubkey := mintAuthorityKey; isSigner := true; isWritable := false |};
      {| pubkey := payer; isSigner := true; isWritable := false |};
      {| pubkey := updateAuthority; isSigner := true; isWritable := false |};
      {| pubkey := SystemProgram_programId E; isSigner := false; isWritable := false |};
      {| pubkey := SYSVAR_RENT_PUBKEY E; isSigner := false; isWritable := false |} ] in
  push_instruction instructions
    (new_TransactionInstruction keys metadataProgramId data).

(** account.ts, lines 489-509. *)
Definition createTokenAccount (instructions : nat) (payer : PublicKey)
    (accountRentExempt : Z) (mint owner : PublicKey) (signers : nat) : M PublicKey :=
  account ← createUninitializedAccount instructions payer accountRentExempt signers;
  push_call instructions
    (Token.createInitAccountInstruction (TOKEN_PROGRAM_ID E) mint account owner);;
  mret account.

(** The predicate handed to [find] in [findOrCreateAccountByMint]. *)
Definition account_matches (accountToFind : string) (owner : PublicKey)
    (excluded : option (gset string)) (acc : option TokenAccount.t) : bool :=
  match acc with
  | None => false
  | Some acc =>
      bool_decide (toBase58 E (AccountInfo.mint (TokenAccount.info acc)) = accountToFind)
      && bool_decide (toBase58 E (AccountInfo.owner (TokenAccount.info acc))
                      = toBase58 E owner)
      && match excluded with
         | None => true
         | Some excluded =>
             negb (bool_decide (toBase58 E (TokenAccount.pubkey acc) ∈ excluded))
         end
  end.

(** account.ts, lines 512-563. *)
Definition findOrCreateAccountByMint (payer owner : PublicKey)
    (instructions cleanupInstructions : nat) (accountRentExempt : Z)
    (mint : PublicKey) (signers : nat) (excluded : option (gset string))
  : M PublicKey :=
  let accountToFind := toBase58 E mint in
  cache ← read_cache;
  let account :=
    mjoin (List.find (account_matches accountToFind owner excluded)
             (map (cache_get cache) (byParser_TokenAccountParser cache))) in
  let isWrappedSol := bool_decide (accountToFind = toBase58 E (WRAPPED_SOL_MINT E)) in
  let create : M PublicKey :=
    toAccount ← createTokenAccount instructions payer accountRentExempt
                  mint owner signers;
    (if isWrappedSol
     then push_call cleanupInstructions
            (Token.createCloseAccountInstruction
               (TOKEN_PROGRAM_ID E) toAccount payer payer [])
     else mret ());;
    mret toAccount in
  match account with
  | Some account =>
      if negb isWrappedSol then mret (TokenAccount.pubkey account) else create
  | None => create
  end.
End Builders.

(** * Vocabulary of the properties *)

(** ** Wire values and records *)

(** The values a field of a wire type can hold on the wire: a [u8] in
    range, a string whose byte length fits the u32 prefix, a buffer of the
    declared size, and for an option either [undefined] or such a value. *)
Fixpoint wire_value (fieldType : FieldType) (v : JsValue) : Prop :=
  match fieldType with
  | U8 => match v with JNumber n => 0 ≤ n < 256 | _ => False end
  | StringT =>
      match v with
      | JString s => Z.of_nat (length (Buffer_from s)) < 2 ^ 32
      | _ => False
      end
  | FixedArray n => match v with JBuffer b => length b = n | _ => False end
  | OptionT type => v = JUndefined ∨ (v ≠ JUndefined ∧ wire_value type v)
  end.

(** The object the struct decoder builds from the fields of [obj]. *)
Definition decoded_object (fs : list (string * FieldType)) (obj : Instance)
    (result : gmap string JsValue) : gmap string JsValue :=
  foldl (λ r f, <[f.1 := get_field obj f.1]> r) result fs.

Definition wire_fields (fs : list (string * FieldType)) (obj : Instance) : Prop :=
  Forall (λ f, wire_value f.2 (get_field obj f.1)) fs.

(** A well-formed record: the mint is a 32-byte key. *)
Definition Metadata_valid (R : Metadata.t) : Prop :=
  length (toBuffer (Metadata.mint R)) = 32%nat.

(** The declared length bounds on name, symbol and uri, in bytes. *)
Definition Metadata_within_bounds (R : Metadata.t) : Prop :=
  (Z.of_nat (length (Buffer_from (Metadata.name R))) ≤ MAX_NAME_LENGTH)%Z
  ∧ (Z.of_nat (length (Buffer_from (Metadata.symbol R))) ≤ MAX_SYMBOL_LENGTH)%Z
  ∧ (Z.of_nat (length (Buffer_from (Metadata.uri R))) ≤ MAX_URI_LENGTH)%Z.

Definition Metadata_fields : list (string * FieldType) :=
  [ ("allow_duplicates", OptionT U8); ("mint", FixedArray 32);
    ("name", StringT); ("symbol", StringT); ("uri", StringT) ].

(** What the first field of the Metadata schema entry holds in an account:
    nothing, or a u8. *)
Definition allow_duplicates_value (allow_duplicates : option byte) : JsValue :=
  from_option (λ v, JNumber (Z_of_byte v)) JUndefined allow_duplicates.

(** The bytes of a Metadata account as the Metadata schema entry lays them
    out: the presence byte of [allow_duplicates] and its value when it is
    there, the 32 bytes of the mint, and the name, the symbol and the uri
    as length-prefixed strings. *)
Definition Metadata_bytes (allow_duplicates : option byte) (R : Metadata.t) : list byte :=
  match allow_duplicates with None => [x00] | Some v => [x01; v] end
  ++ toBuffer (Metadata.mint R) ++ writeString (Metadata.name R)
  ++ writeString (Metadata.symbol R) ++ writeString (Metadata.uri R).

(** What [decodeMetadata] makes of the bytes of a record: the same mint,
    name, symbol and uri, and neither of the two optional members. *)
Definition Metadata_decoded (R : Metadata.t) : Metadata.t :=
  {| Metadata.updateAuthority := None;
     Metadata.mint := Metadata.mint R;
     Metadata.name := Metadata.name R;
     Metadata.symbol := Metadata.symbol R;
     Metadata.uri := Metadata.uri R;
     Metadata.extended := None |}.

(** ** Instructions and lists *)

(** The creation instruction of the spec: the system program's
    account-allocation instruction. *)
Definition is_creation (i : TransactionInstruction) : bool :=
  match i with SystemProgram_createAccount _ _ _ _ _ => true | _ => false end.

(** The close instruction scheduled for a wrapped-native account. *)
Definition is_close (i : TransactionInstruction) : bool :=
  match i with Token_createCloseAccountInstruction _ _ _ _ _ => true | _ => false end.

Definition count (P : TransactionInstruction → bool) (l : list TransactionInstruction)
  : nat := length (List.filter P l).

Section Vocabulary.
Variable E : Externals.

(** The seeds of the two derived addresses. *)
Definition metadata_seeds (mintKey : PublicKey) : list (list byte) :=
  [ Buffer_from "metadata"; toBuffer (programIds_metadata E); toBuffer mintKey ].

Definition metadata_owner_seeds (name symbol : string) : list (list byte) :=
  [ Buffer_from "metadata"; toBuffer (programIds_metadata E);
    Buffer_from name; Buffer_from symbol ].

(** The cached accounts that [findOrCreateAccountByMint] accepts for a
    mint and an owner, in the cache's order. *)
Definition cache_matches (σ : Store) (mint owner : PublicKey)
    (excluded : option (gset string)) : list (option TokenAccount.t) :=
  List.filter (account_matches E (toBase58 E mint) owner excluded)
    (map (cache_get (cache σ)) (byParser_TokenAccountParser (cache σ))).

End Vocabulary.

(** The object literal [{ updateAuthority, mint, name, symbol, uri }]
    handed to [new Metadata(...)]. *)
Definition Metadata_args (updateAuthority : option (list byte)) (mint : list byte)
    (name symbol uri : string) : gmap string JsValue :=
  <["updateAuthority" := from_option JBuffer JUndefined updateAuthority]>
    (<["mint" := JBuffer mint]>
       (<["name" := JString name]>
          (<["symbol" := JString symbol]> (<["uri" := JString uri]> ∅)))).

(** ** Stores that only grow *)

(** [σ'] differs from [σ] by appends only: under every reference the
    array of [σ'] starts with the array of [σ] (and a reference is
    allocated in both or in neither), no key pair is given back, and the
    cache is the same. *)
Definition append_only (σ σ' : Store) : Prop :=
  (∀ r : nat, option_Forall2 prefix (instructionArrays σ !! r) (instructionArrays σ' !! r))
  ∧ (∀ r : nat, option_Forall2 prefix (signerArrays σ !! r) (signerArrays σ' !! r))
  ∧ (generated σ ≤ generated σ')%nat
  ∧ cache σ' = cache σ.

(** A computation that only appends, whether it returns or throws. *)
Definition appends_only {A} (m : M A) : Prop := ∀ σ, append_only σ (m σ).2.

(** The fewest bytes a field of a wire type takes. *)
Definition min_size (fieldType : FieldType) : nat :=
  match fieldType with
  | U8 => 1
  | StringT => 4
  | FixedArray n => n
  | OptionT _ => 1
  end.

Definition min_sizes (fs : list (string * FieldType)) : nat :=
  foldr (λ f n, min_size f.2 + n)%nat 0%nat fs.

(** ** Sample data *)

(** A 32-byte key made of one repeated byte, for the examples. *)
Definition sample_key (z : Z) : PublicKey := mkPublicKey (replicate 32 (byte_of_Z z)).

Definition sample_Metadata : Metadata.t :=
  {| Metadata.updateAuthority := None;
     Metadata.mint := sample_key 2;
     Metadata.name := "Foo";
     Metadata.symbol := "FOO";
     Metadata.uri := "http://x";
     Metadata.extended := None |}.

Definition sample_Metadata_with_authority : Metadata.t :=
  {| Metadata.updateAuthority := Some (sample_key 1);
     Metadata.mint := sample_key 2;
     Metadata.name := "Foo";
     Metadata.symbol := "FOO";
     Metadata.uri := "http://x";
     Metadata.extended := None |}.

(** [sample_Metadata] with an [extended] value. *)
Definition sample_Metadata_extended : Metadata.t :=
  {| Metadata.updateAuthority := None;
     Metadata.mint := sample_key 2;
     Metadata.name := "Foo";
     Metadata.symbol := "FOO";
     Metadata.uri := "http://x";
     Metadata.extended := Some (JNumber 1) |}.

(** The bytes of an account that holds [sample_Metadata], with no
    [allow_duplicates], followed by two bytes that the decoder leaves
    unread. *)
Definition sample_Metadata_bytes : list byte :=
  x00 :: toBuffer (sample_key 2)
    ++ writeString "Foo" ++ writeString "FOO" ++ writeString "http://x"
    ++ [xff; xff].

(** Stand-ins for what the file imports: distinct well-known addresses,
    the layout sizes of spl-token, the key's bytes read as text in place
    of its base58 form, a derivation that refuses a seed of more than 32
    bytes, as web3.js does, and finds an address for any other seeds, and
    a key-pair generator that counts. *)
Definition sample_externals : Externals :=
  {| TOKEN_PROGRAM_ID := sample_key 10;
     WRAPPED_SOL_MINT := sample_key 11;
     SPL_ASSOCIATED_TOKEN_ACCOUNT_PROGRAM_ID := sample_key 12;
     SystemProgram_programId := sample_key 0;
     SYSVAR_RENT_PUBKEY := sample_key 13;
     programIds_metadata := sample_key 14;
     AccountLayout_span := 165;
     MintLayout_span := 82;
     toBase58 := λ k, String.string_of_list_byte (toBuffer k);
     findProgramAddress := λ seeds programId,
       if forallb (λ seed, length seed <=? 32)%nat seeds
       then Ok (mkPublicKey (take 32 (concat seeds ++ toBuffer programId)), 255)
       else Err DerivationError;
     generateKeypair := λ n,
       {| publicKey := sample_key (100 + Z.of_nat n); secretKey := [] |} |}.

(** A name of 33 bytes. *)
Definition sample_long_name : string := "The thirty-three bytes of a name.".

Definition sample_payer : PublicKey := sample_key 20.
Definition sample_owner : PublicKey := sample_key 21.

(** A token account of [sample_owner] for a mint. *)
Definition sample_account (mint : PublicKey) (isNative : bool) : TokenAccount.t :=
  {| TokenAccount.pubkey := sample_key 30;
     TokenAccount.info :=
       {| AccountInfo.mint := mint; AccountInfo.owner := sample_owner;
          AccountInfo.amount := 5; AccountInfo.isNative := isNative |} |}.

(** A store with an empty instruction list under reference 0, an empty
    cleanup list under reference 1, an empty signer list under reference
    0, and a cache that holds one token account for the mint. *)
Definition sample_store (mint : PublicKey) : Store :=
  mkStore {[ 0%nat := []; 1%nat := [] ]} {[ 0%nat := [] ]} 0
    {| byParser_TokenAccountParser := ["a"];
       cache_get := λ id,
         if decide (id = "a") then Some (sample_account mint false) else None |}.

(** A second token account of [sample_owner] for a mint. *)
Definition sample_account2 (mint : PublicKey) : TokenAccount.t :=
  {| TokenAccount.pubkey := sample_key 31;
     TokenAccount.info :=
       {| AccountInfo.mint := mint; AccountInfo.owner := sample_owner;
          AccountInfo.amount := 0; AccountInfo.isNative := false |} |}.

(** [sample_store] with a cache that lists three ids: an id with no
    account behind it, then the two token accounts for the mint. *)
Definition sample_store2 (mint : PublicKey) : Store :=
  mkStore {[ 0%nat := []; 1%nat := [] ]} {[ 0%nat := [] ]} 0
    {| byParser_TokenAccountParser := ["gone"; "a"; "b"];
       cache_get := λ id,
         if decide (id = "a") then Some (sample_account mint false)
         else if decide (id = "b") then Some (sample_account2 mint)
         else None |}.

(** The exclusion set that holds the key of the first sample account. *)
Definition sample_excluded : gset string :=
  {[ toBase58 sample_externals (sample_key 30) ]}.

(** ** Proof steps *)

Ltac reader_unfold :=
  unfold mbind, Reader_bind, fmap, Reader_fmap, mret, Reader_ret.

Ltac result_unfold :=
  unfold mbind, Result_bind, fmap, Result_fmap, mret, Result_ret.

Ltac m_unfold := unfold mbind, M_bind, mret, M_ret, lift.
Ltac range_solve := unfold ns64, u8; cbn; lia.

(** * Properties *)

(** ** Bytes and the length prefix *)

Lemma Z_of_byte_of_Z (z : Z) : Z_of_byte (byte_of_Z z) = z mod 256.
Proof.
  unfold Z_of_byte, byte_of_Z.
  pose proof (Z.mod_pos_bound z 256 ltac:(lia)) as Hb.
  destruct (Byte.of_N (Z.to_N (z mod 256))) as [b|] eqn:Hof.
  - apply Byte.to_of_N in Hof. simpl. rewrite Hof. lia.
  - apply Byte.of_N_None_iff in Hof. lia.
Qed.

Lemma readU32_writeU32 (n : Z) (rest : list byte) :
  readU32 (writeU32 n ++ rest) = Ok (n mod 2 ^ 32, rest).
Proof.
  unfold readU32, writeU32, mbind, Reader_bind, mret, Reader_ret, readU8.
  cbn -[Z.pow Z.div Z.modulo byte_of_Z Z_of_byte].
  rewrite !Z_of_byte_of_Z. do 2 f_equal.
  pose proof (Z.mod_pos_bound n (2 ^ 32) ltac:(lia)) as Hb.
  set (w := n mod 2 ^ 32) in *.
  change (2 ^ 8) with 256. change (2 ^ 16) with (256 * 256).
  change (2 ^ 24) with (256 * 256 * 256).
  change (2 ^ 32) with (256 * 256 * 256 * 256) in Hb.
  rewrite <- !Z.div_div by lia.
  rewrite (Z.mod_small (w / 256 / 256 / 256) 256).
  2: { split; [repeat apply Z.div_pos; lia |].
       repeat (apply Z.div_lt_upper_bound; [lia |]). lia. }
  pose proof (Z.div_mod w 256 ltac:(lia)).
  pose proof (Z.div_mod (w / 256) 256 ltac:(lia)).
  pose proof (Z.div_mod (w / 256 / 256) 256 ltac:(lia)).
  lia.
Qed.

Lemma readBuffer_app (b rest : list byte) :
  readBuffer (length b) (b ++ rest) = Ok (b, rest).
Proof.
  unfold readBuffer. rewrite decide_True by (rewrite length_app; lia).
  by rewrite take_app_length, drop_app_length.
Qed.

Lemma readBuffer_short (n : nat) (p : list byte) :
  (length p < n)%nat → readBuffer n p = Err MalformedInput.
Proof. intros H. unfold readBuffer. by rewrite decide_False by lia. Qed.

Lemma readString_writeString (s : string) (rest : list byte) :
  Z.of_nat (length (Buffer_from s)) < 2 ^ 32 →
  readString (writeString s ++ rest) = Ok (s, rest).
Proof.
  intros Hlen. unfold readString, writeString.
  rewrite <- app_assoc. unfold mbind, Reader_bind at 1.
  rewrite readU32_writeU32, Z.mod_small by lia.
  rewrite Nat2Z.id. unfold mbind, Reader_bind. rewrite readBuffer_app.
  unfold mret, Reader_ret, Buffer_from.
  by rewrite String.string_of_list_byte_of_string.
Qed.

(** ** Fields: what is written is what is read back *)

Lemma serializeField_option_present (type : FieldType) (v : JsValue) :
  v ≠ JUndefined →
  serializeField (OptionT type) v = (b ← serializeField type v; Ok (x01 :: b)).
Proof. intros Hv. destruct v; [congruence | reflexivity ..]. Qed.

Lemma serializeField_total (fieldType : FieldType) (v : JsValue) :
  wire_value fieldType v → ∃ b, serializeField fieldType v = Ok b.
Proof.
  revert v. induction fieldType as [| | n | type IH]; intros v Hv; simpl in Hv.
  - destruct v; try done. simpl. unfold writeU8. rewrite decide_True by done. eauto.
  - destruct v; try done. simpl. eauto.
  - destruct v; try done. simpl. rewrite decide_True by done. eauto.
  - destruct Hv as [-> | [Hne Hv]]; [simpl; eauto |].
    rewrite serializeField_option_present by done.
    destruct (IH v Hv) as [b ->]. simpl. eauto.
Qed.

Lemma deserialize_serialize_field (fieldType : FieldType) (v : JsValue)
    (b rest : list byte) :
  wire_value fieldType v →
  serializeField fieldType v = Ok b →
  deserializeField fieldType (b ++ rest) = Ok (v, rest).
Proof.
  revert v b. induction fieldType as [| | n | type IH]; intros v b Hv Hs; simpl in Hv.
  - destruct v as [| z | | | |]; try done. simpl in Hs. unfold writeU8 in Hs.
    rewrite decide_True in Hs by done. injection Hs as <-.
    simpl. reader_unfold. simpl. rewrite Z_of_byte_of_Z, Z.mod_small by lia. done.
  - destruct v as [| | | s | |]; try done. simpl in Hs. injection Hs as <-.
    cbn [deserializeField]. unfold fmap, Reader_fmap.
    by rewrite readString_writeString.
  - destruct v as [| | | | bytes |]; try done. simpl in Hs.
    rewrite decide_True in Hs by done. injection Hs as <-. subst n.
    simpl. reader_unfold. by rewrite readBuffer_app.
  - destruct Hv as [-> | [Hne Hv]].
    + simpl in Hs. injection Hs as <-. reflexivity.
    + rewrite serializeField_option_present in Hs by done.
      destruct (serializeField type v) as [b' |] eqn:Hb'; [| done].
      simpl in Hs. injection Hs as <-.
      simpl. reader_unfold. simpl. by apply IH.
Qed.

(** ** Fields: a cut encoding does not decode *)

Lemma readU32_short (p : list byte) :
  (length p < 4)%nat → readU32 p = Err MalformedInput.
Proof.
  intros H. unfold readU32. reader_unfold.
  do 4 (destruct p as [| ? p]; [reflexivity | simpl in H |- *]). lia.
Qed.

Lemma writeU32_length (n : Z) : length (writeU32 n) = 4%nat.
Proof. reflexivity. Qed.

Lemma deserializeField_truncated (fieldType : FieldType) (v : JsValue)
    (p q : list byte) :
  wire_value fieldType v →
  serializeField fieldType v = Ok (p ++ q) →
  q ≠ [] →
  deserializeField fieldType p = Err MalformedInput.
Proof.
  revert v p q.
  induction fieldType as [| | n | type IH]; intros v p q Hv Hs Hq; simpl in Hv.
  - destruct v as [| z | | | |]; try done. simpl in Hs. unfold writeU8 in Hs.
    rewrite decide_True in Hs by done. injection Hs as Hs.
    destruct p as [| a p]; [reflexivity |].
    destruct p, q; simpl in Hs; congruence.
  - destruct v as [| | | s | |]; try done. simpl in Hs. injection Hs as Hs.
    unfold writeString in Hs. cbn [deserializeField]. unfold fmap, Reader_fmap.
    unfold readString. unfold mbind at 1. unfold Reader_bind at 1.
    apply app_eq_inv in Hs as [(k & Hw & Hk) | (k & -> & Hk)].
    + destruct k as [| a k].
      * rewrite app_nil_r in Hw. subst p. simpl in Hk. subst q.
        rewrite <- (app_nil_r (writeU32 _)), readU32_writeU32, Z.mod_small by lia.
        reader_unfold. rewrite Nat2Z.id, readBuffer_short; [done |].
        destruct (Buffer_from s); [done | simpl; lia].
      * rewrite readU32_short; [done |].
        apply (f_equal length) in Hw. rewrite writeU32_length, length_app in Hw.
        simpl in Hw. lia.
    + rewrite readU32_writeU32, Z.mod_small by lia.
      reader_unfold. rewrite Nat2Z.id, readBuffer_short; [done |].
      rewrite Hk, length_app. destruct q; [done | simpl; lia].
  - destruct v as [| | | | bytes |]; try done. simpl in Hs.
    rewrite decide_True in Hs by done. injection Hs as ->. subst n.
    simpl. reader_unfold. rewrite readBuffer_short; [done |].
    rewrite length_app. destruct q; [done | simpl; lia].
  - destruct Hv as [-> | [Hne Hv]].
    + simpl in Hs. injection Hs as Hs.
      destruct p as [| a p]; [reflexivity |].
      destruct p, q; simpl in Hs; congruence.
    + rewrite serializeField_option_present in Hs by done.
      destruct (serializeField type v) as [b' |] eqn:Hb'; [| done].
      simpl in Hs. injection Hs as Hs.
      destruct p as [| a p]; [reflexivity |].
      simpl in Hs. injection Hs as <- ->.
      simpl. reader_unfold. simpl. by eapply IH.
Qed.

(** ** Structs *)

Lemma serializeStruct_cons (f : string * FieldType) (fs : list (string * FieldType))
    (obj : Instance) (bs : list byte) :
  serializeStruct (f :: fs) obj = Ok bs →
  ∃ b bs', serializeField f.2 (get_field obj f.1) = Ok b
           ∧ serializeStruct fs obj = Ok bs' ∧ bs = b ++ bs'.
Proof.
  destruct f as [k ty]. simpl. result_unfold.
  destruct (serializeField ty (get_field obj k)) as [b |]; [| done].
  destruct (serializeStruct fs obj) as [bs' |]; [| done].
  intros [= <-]. eauto.
Qed.

Lemma deserialize_serialize_fields (fs : list (string * FieldType)) (obj : Instance)
    (bs rest : list byte) (result : gmap string JsValue) :
  wire_fields fs obj →
  serializeStruct fs obj = Ok bs →
  deserializeFields fs result (bs ++ rest) = Ok (decoded_object fs obj result, rest).
Proof.
  revert bs result. induction fs as [| [k ty] fs IH]; intros bs result Hw Hs.
  - simpl in Hs. injection Hs as <-. reflexivity.
  - apply serializeStruct_cons in Hs as (b & bs' & Hb & Hbs' & ->).
    apply Forall_cons in Hw as [Hv Hw]. simpl in Hb, Hv.
    cbn [deserializeFields]. unfold mbind at 1. unfold Reader_bind at 1.
    rewrite <- app_assoc, (deserialize_serialize_field _ _ _ _ Hv Hb).
    by apply IH.
Qed.

Lemma deserializeFields_truncated (fs : list (string * FieldType)) (obj : Instance)
    (p q : list byte) (result : gmap string JsValue) :
  wire_fields fs obj →
  serializeStruct fs obj = Ok (p ++ q) →
  q ≠ [] →
  deserializeFields fs result p = Err MalformedInput.
Proof.
  revert p q result. induction fs as [| [k ty] fs IH]; intros p q result Hw Hs Hq.
  - simpl in Hs. injection Hs as Hs. symmetry in Hs.
    apply app_eq_nil in Hs as [_ ->]. done.
  - apply serializeStruct_cons in Hs as (b & bs' & Hb & Hbs' & Heq).
    apply Forall_cons in Hw as [Hv Hw]. simpl in Hb, Hv.
    cbn [deserializeFields]. unfold mbind at 1. unfold Reader_bind at 1.
    symmetry in Heq. apply app_eq_inv in Heq as [(k' & -> & ->) | (k' & -> & ->)].
    + destruct k' as [| a k'].
      * rewrite app_nil_r in Hb. simpl in Hq.
        rewrite <- (app_nil_r p), (deserialize_serialize_field _ _ _ _ Hv Hb).
        by apply (IH [] bs').
      * by rewrite (deserializeField_truncated _ _ _ _ Hv Hb).
    + rewrite (deserialize_serialize_field _ _ _ _ Hv Hb). by eapply IH.
Qed.

(** A field that the schema entry does not declare is not set by the
    struct decoder. *)
Lemma deserializeFields_other (fs : list (string * FieldType))
    (result result' : gmap string JsValue) (buf rest : list byte) (k : string) :
  k ∉ fs.*1 →
  deserializeFields fs result buf = Ok (result', rest) →
  result' !! k = result !! k.
Proof.
  revert result buf. induction fs as [| [k' ty] fs IH]; intros result buf Hk Hd.
  - simpl in Hd. by injection Hd as <- _.
  - apply not_elem_of_cons in Hk as [Hne Hk]. simpl in Hne.
    cbn [deserializeFields] in Hd. unfold mbind at 1 in Hd. unfold Reader_bind at 1 in Hd.
    destruct (deserializeField ty buf) as [[v buf'] |]; [| done].
    rewrite (IH _ _ Hk Hd). by apply lookup_insert_ne.
Qed.

(** ** Metadata records *)

Lemma schema_get_Metadata :
  schema_get SCHEMA Metadata_class = Some {| kind := "struct"; fields := Metadata_fields |}.
Proof. reflexivity. Qed.

Lemma Metadata_get_schema_fields (R : Metadata.t) :
  Metadata.get R "allow_duplicates" = JUndefined
  ∧ Metadata.get R "mint" = JPublicKey (Metadata.mint R)
  ∧ Metadata.get R "name" = JString (Metadata.name R)
  ∧ Metadata.get R "symbol" = JString (Metadata.symbol R)
  ∧ Metadata.get R "uri" = JString (Metadata.uri R).
Proof. repeat split. Qed.

(** [serialize] rejects every Metadata instance: the [mint] member is a
    [PublicKey] object, which is no 32-byte buffer for the [[32]] field. *)
Lemma serialize_Metadata_rejected (R : Metadata.t) :
  serialize SCHEMA (OfMetadata R) = Err EncodeError.
Proof.
  unfold serialize. cbn [constructor]. rewrite schema_get_Metadata.
  cbn [kind fields]. rewrite decide_True by done.
  unfold Metadata_fields. cbn [serializeStruct get_field].
  destruct (Metadata_get_schema_fields R) as (-> & -> & -> & -> & ->).
  reflexivity.
Qed.

Lemma strip_zeros_pad (b : list byte) :
  replicate (length b - length (strip_zeros b)) x00 ++ strip_zeros b = b
  ∧ (length (strip_zeros b) ≤ length b)%nat.
Proof.
  induction b as [| a b [IH Hle]]; [done |]. simpl strip_zeros.
  destruct (decide (a = x00)) as [-> |].
  - split; [| simpl; lia].
    replace (length (x00 :: b) - length (strip_zeros b))%nat
      with (S (length b - length (strip_zeros b))) by (simpl; lia).
    simpl. by rewrite IH.
  - by rewrite Nat.sub_diag.
Qed.

Lemma new_PublicKey_toBuffer (k : PublicKey) :
  length (toBuffer k) = 32%nat → new_PublicKey (toBuffer k) = Ok k.
Proof.
  intros H. unfold new_PublicKey. destruct (strip_zeros_pad (toBuffer k)) as [Hp Hl].
  rewrite decide_True by lia. rewrite <- H, Hp. by destruct k.
Qed.

Lemma Z_of_byte_zero (b : byte) : Z_of_byte b = 0 → b = x00.
Proof.
  unfold Z_of_byte. intros H.
  assert (Byte.to_N b = Byte.to_N x00) as Hn by (cbn; lia).
  pose proof (Byte.of_to_N b) as Hb. rewrite Hn in Hb. cbn in Hb. congruence.
Qed.

Lemma Z_of_byte_range (b : byte) : 0 ≤ Z_of_byte b < 256.
Proof. unfold Z_of_byte. pose proof (Byte.to_N_bounded b). lia. Qed.

Lemma byte_of_Z_of_byte (b : byte) : byte_of_Z (Z_of_byte b) = b.
Proof.
  unfold byte_of_Z. rewrite Z.mod_small by apply Z_of_byte_range.
  unfold Z_of_byte. by rewrite N2Z.id, Byte.of_to_N.
Qed.

Lemma deserializeFields_cons (k : string) (ty : FieldType)
    (fs : list (string * FieldType)) (result : gmap string JsValue) (buf : list byte) :
  deserializeFields ((k, ty) :: fs) result buf
  = match deserializeField ty buf with
    | Ok (v, b) => deserializeFields fs (<[k := v]> result) b
    | Err e => Err e
    end.
Proof. reflexivity. Qed.

Lemma deserializeField_option_u8 (tag value : byte) (tail : list byte) :
  deserializeField (OptionT U8) (x00 :: tail) = Ok (JUndefined, tail)
  ∧ (tag ≠ x00 →
     deserializeField (OptionT U8) (tag :: value :: tail)
     = Ok (JNumber (Z_of_byte value), tail)).
Proof.
  split; [reflexivity |]. intros Htag. cbn [deserializeField]. reader_unfold.
  cbn [readU8]. by rewrite decide_False by (intros H; by apply Z_of_byte_zero in H).
Qed.

(** The bytes of [Metadata_bytes] are what the field encoder writes, field
    by field of the schema entry, for the account's values. *)
Lemma Metadata_bytes_by_schema (allow_duplicates : option byte) (R : Metadata.t) :
  Metadata_valid R →
  Metadata_fields.*2 = [OptionT U8; FixedArray 32; StringT; StringT; StringT]
  ∧ ∃ b0 b1 b2 b3 b4,
    serializeField (OptionT U8) (allow_duplicates_value allow_duplicates) = Ok b0
    ∧ serializeField (FixedArray 32) (JBuffer (toBuffer (Metadata.mint R))) = Ok b1
    ∧ serializeField StringT (JString (Metadata.name R)) = Ok b2
    ∧ serializeField StringT (JString (Metadata.symbol R)) = Ok b3
    ∧ serializeField StringT (JString (Metadata.uri R)) = Ok b4
    ∧ Metadata_bytes allow_duplicates R = b0 ++ b1 ++ b2 ++ b3 ++ b4.
Proof.
  intros Hm. split; [reflexivity |]. unfold Metadata_bytes.
  exists (match allow_duplicates with None => [x00] | Some v => [x01; v] end),
    (toBuffer (Metadata.mint R)), (writeString (Metadata.name R)),
    (writeString (Metadata.symbol R)), (writeString (Metadata.uri R)).
  split; [| split; [| done]].
  - destruct allow_duplicates as [v |]; [| reflexivity].
    cbn [allow_duplicates_value from_option serializeField]. unfold writeU8.
    rewrite decide_True by apply Z_of_byte_range. result_unfold.
    by rewrite byte_of_Z_of_byte.
  - cbn [serializeField]. by rewrite decide_True by exact Hm.
Qed.

Lemma deserializeFields_Metadata_bytes (allow_duplicates : option byte)
    (R : Metadata.t) (rest : list byte) :
  Metadata_valid R → Metadata_within_bounds R →
  deserializeFields Metadata_fields ∅ (Metadata_bytes allow_duplicates R ++ rest)
  = Ok (<["uri" := JString (Metadata.uri R)]>
          (<["symbol" := JString (Metadata.symbol R)]>
             (<["name" := JString (Metadata.name R)]>
                (<["mint" := JBuffer (toBuffer (Metadata.mint R))]>
                   (<["allow_duplicates" := allow_duplicates_value allow_duplicates]>
                      ∅)))),
        rest).
Proof.
  intros Hm (Hn & Hs & Hu).
  unfold MAX_NAME_LENGTH, MAX_SYMBOL_LENGTH, MAX_URI_LENGTH in *.
  unfold Metadata_fields, Metadata_bytes. rewrite <- !app_assoc.
  rewrite deserializeFields_cons.
  assert (∀ tail,
            deserializeField (OptionT U8)
              (match allow_duplicates with None => [x00] | Some v => [x01; v] end ++ tail)
            = Ok (allow_duplicates_value allow_duplicates, tail)) as ->.
  { intros tail. destruct allow_duplicates as [v |]; cbn [app].
    - by apply (deserializeField_option_u8 x01 v tail).
    - by apply (deserializeField_option_u8 x01 x00 tail). }
  rewrite deserializeFields_cons.
  rewrite (deserialize_serialize_field (FixedArray 32) (JBuffer _) _ _ Hm)
    by (cbn [serializeField]; by rewrite decide_True by exact Hm).
  assert (∀ s tail, Z.of_nat (length (Buffer_from s)) < 2 ^ 32 →
            deserializeField StringT (writeString s ++ tail) = Ok (JString s, tail))
    as Hstr by (intros s0 tail Hlt; by apply (deserialize_serialize_field StringT (JString s0))).
  rewrite deserializeFields_cons, Hstr by lia.
  rewrite deserializeFields_cons, Hstr by lia.
  by rewrite deserializeFields_cons, Hstr by lia.
Qed.

Lemma decodeMetadata_Metadata_bytes (allow_duplicates : option byte) (R : Metadata.t)
    (rest : list byte) :
  Metadata_valid R → Metadata_within_bounds R →
  decodeMetadata (Metadata_bytes allow_duplicates R ++ rest) = Ok (Metadata_decoded R).
Proof.
  intros Hm Hb. unfold decodeMetadata, deserializeBorsh. rewrite schema_get_Metadata.
  cbn [kind fields]. rewrite decide_True by done.
  rewrite (deserializeFields_Metadata_bytes _ _ _ Hm Hb). result_unfold.
  cbn [construct]. unfold Metadata.new, prop.
  repeat (rewrite lookup_insert_eq || rewrite lookup_insert_ne by done).
  rewrite lookup_empty. cbn [default from_option id as_key as_string]. result_unfold.
  rewrite (new_PublicKey_toBuffer _ Hm). reflexivity.
Qed.

(** *** Reading a prefix *)

Lemma readU32_prefix (p q rest : list byte) (z : Z) :
  readU32 (p ++ q) = Ok (z, rest) →
  readU32 p = Err MalformedInput
  ∨ ∃ rest', readU32 p = Ok (z, rest') ∧ rest = rest' ++ q.
Proof.
  destruct (decide (length p < 4)%nat) as [Hlt | Hge].
  - intros _. left. by apply readU32_short.
  - do 4 (destruct p as [| ? p]; [simpl in Hge; lia |]).
    unfold readU32. reader_unfold. cbn. intros [= <- <-]. right. eauto.
Qed.

Lemma readBuffer_prefix (n : nat) (p q b rest : list byte) :
  readBuffer n (p ++ q) = Ok (b, rest) →
  readBuffer n p = Err MalformedInput
  ∨ ∃ rest', readBuffer n p = Ok (b, rest') ∧ rest = rest' ++ q.
Proof.
  unfold readBuffer. destruct (decide (n ≤ length (p ++ q))%nat); [| done].
  intros [= <- <-]. destruct (decide (n ≤ length p)%nat) as [Hle |]; [| by left].
  right. eexists. by rewrite take_app_le, drop_app_le by done.
Qed.

Lemma deserializeField_prefix (fieldType : FieldType) (p q rest : list byte)
    (v : JsValue) :
  deserializeField fieldType (p ++ q) = Ok (v, rest) →
  deserializeField fieldType p = Err MalformedInput
  ∨ ∃ rest', deserializeField fieldType p = Ok (v, rest') ∧ rest = rest' ++ q.
Proof.
  revert p v rest. induction fieldType as [| | n | type IH]; intros p v rest;
    cbn [deserializeField]; unfold fmap, Reader_fmap.
  - destruct p as [| a p]; [by left |]. cbn. intros [= <- <-]. right. eauto.
  - unfold readString. reader_unfold.
    destruct (readU32 (p ++ q)) as [[z b] |] eqn:Hz; [| done].
    apply readU32_prefix in Hz as [-> | (b' & -> & ->)]; [by left |].
    destruct (readBuffer _ (b' ++ q)) as [[s r] |] eqn:Hs; [| done].
    intros [= <- <-].
    apply readBuffer_prefix in Hs as [-> | (r' & -> & ->)]; [by left |].
    right. eauto.
  - destruct (readBuffer n (p ++ q)) as [[s r] |] eqn:Hs; [| done].
    intros [= <- <-].
    apply readBuffer_prefix in Hs as [-> | (r' & -> & ->)]; [by left |].
    right. eauto.
  - reader_unfold. destruct p as [| a p]; [by left |]. cbn [app readU8].
    destruct (decide _); [intros [= <- <-]; right; eauto | apply IH].
Qed.

Lemma deserializeFields_prefix (fs : list (string * FieldType))
    (result result' : gmap string JsValue) (p q rest : list byte) :
  deserializeFields fs result (p ++ q) = Ok (result', rest) →
  deserializeFields fs result p = Err MalformedInput
  ∨ ∃ rest', deserializeFields fs result p = Ok (result', rest') ∧ rest = rest' ++ q.
Proof.
  revert result p. induction fs as [| [k ty] fs IH]; intros result p.
  - intros [= <- <-]. right. by exists p.
  - rewrite !deserializeFields_cons.
    destruct (deserializeField ty (p ++ q)) as [[v b] |] eqn:Hv; [| done].
    apply deserializeField_prefix in Hv as [-> | (b' & -> & ->)]; [by left |].
    apply IH.
Qed.

(** A buffer that decodes with no byte left over does not decode once it
    is cut short. *)
Lemma deserializeFields_cut (fs : list (string * FieldType))
    (result result' : gmap string JsValue) (p q : list byte) :
  deserializeFields fs result (p ++ q) = Ok (result', []) → q ≠ [] →
  deserializeFields fs result p = Err MalformedInput.
Proof.
  intros Hd Hq. apply deserializeFields_prefix in Hd as [-> | (r' & _ & Hnil)]; [done |].
  symmetry in Hnil. by apply app_eq_nil in Hnil as [_ ->].
Qed.

(** C8: whenever [decodeMetadata] decodes a buffer, the record it returns
    has no [updateAuthority]: the Metadata schema entry declares no such
    field, so the object handed to the constructor never carries one. *)
Theorem decodeMetadata_updateAuthority_absent (buffer : list byte) (m : Metadata.t) :
  decodeMetadata buffer = Ok m → Metadata.updateAuthority m = None.
Proof.
  unfold decodeMetadata, deserializeBorsh. rewrite schema_get_Metadata.
  cbn [kind fields]. rewrite decide_True by done.
  unfold mbind at 2. unfold Result_bind at 2.
  destruct (deserializeFields Metadata_fields ∅ buffer) as [[result rest] |] eqn:Hd;
    [| done].
  apply (deserializeFields_other _ _ _ _ _ "updateAuthority") in Hd.
  2: { unfold Metadata_fields. cbn [fmap list_fmap fst].
       rewrite !not_elem_of_cons. repeat split; try done. apply not_elem_of_nil. }
  rewrite lookup_empty in Hd.
  cbn [construct]. unfold Metadata.new, prop. rewrite Hd.
  cbn [default from_option id]. result_unfold.
  destruct (as_key _); [| done]. destruct (as_string _); [| done].
  destruct (as_string _); [| done]. destruct (as_string _); [| done].
  by intros [= <-].
Qed.

Lemma sample_Metadata_within_bounds : Metadata_within_bounds sample_Metadata.
Proof. unfold Metadata_within_bounds; repeat split; by vm_compute. Defined.

Lemma decodeMetadata_updateAuthority_absent_witness :
  decodeMetadata sample_Metadata_bytes = Ok sample_Metadata
  ∧ Metadata.updateAuthority sample_Metadata = None.
Proof.
  split; [by vm_compute |].
  apply (decodeMetadata_updateAuthority_absent sample_Metadata_bytes).
  by vm_compute.
Defined.

(** Counterexample to C1 as stated: the sample record is a valid record
    within the bounds, and encoding it throws: its mint is a [PublicKey]
    object and the [[32]] field of the schema entry wants 32 bytes, so no
    encoding of it exists to decode.  And the bytes that the schema entry
    lays out for the valid, bounded sample records with an update
    authority and with an [extended] value decode to another record, the
    one without them. *)
Lemma Metadata_roundtrip_counterexample :
  (Metadata_valid sample_Metadata
   ∧ Metadata_within_bounds sample_Metadata
   ∧ serialize SCHEMA (OfMetadata sample_Metadata) = Err EncodeError
   ∧ ¬ ∃ b, serialize SCHEMA (OfMetadata sample_Metadata) = Ok b
            ∧ decodeMetadata b = Ok sample_Metadata)
  ∧ (Metadata_valid sample_Metadata_with_authority
     ∧ Metadata_within_bounds sample_Metadata_with_authority
     ∧ decodeMetadata (Metadata_bytes None sample_Metadata_with_authority)
       = Ok sample_Metadata
     ∧ sample_Metadata ≠ sample_Metadata_with_authority)
  ∧ (Metadata_valid sample_Metadata_extended
     ∧ Metadata_within_bounds sample_Metadata_extended
     ∧ decodeMetadata (Metadata_bytes None sample_Metadata_extended)
       = Ok sample_Metadata
     ∧ sample_Metadata ≠ sample_Metadata_extended).
Proof.
  split; [| split].
  - split; [reflexivity |]. split; [exact sample_Metadata_within_bounds |].
    split; [apply serialize_Metadata_rejected |].
    intros (b & Hs & _). by rewrite serialize_Metadata_rejected in Hs.
  - split; [reflexivity |]. split; [exact sample_Metadata_within_bounds |].
    split; [by vm_compute | discriminate].
  - split; [reflexivity |]. split; [exact sample_Metadata_within_bounds |].
    split; [by vm_compute | discriminate].
Qed.

(** C1, amended: for every valid Metadata record whose name, symbol and
    uri are within the declared bounds and whose [updateAuthority] and
    [extended] are absent, decoding the bytes that the Metadata schema
    entry lays out for the record (the [allow_duplicates] option absent
    or present, the 32 bytes of the mint, the three strings) gives the
    record back.  [serialize] does not produce these bytes from the
    record: it rejects it. *)
Theorem Metadata_roundtrip (allow_duplicates : option byte) (R : Metadata.t) :
  Metadata_valid R → Metadata_within_bounds R →
  Metadata.updateAuthority R = None → Metadata.extended R = None →
  decodeMetadata (Metadata_bytes allow_duplicates R) = Ok R
  ∧ serialize SCHEMA (OfMetadata R) = Err EncodeError.
Proof.
  intros Hm Hb Hua Hext. split; [| apply serialize_Metadata_rejected].
  rewrite <- (app_nil_r (Metadata_bytes _ _)).
  rewrite (decodeMetadata_Metadata_bytes _ R _ Hm Hb).
  destruct R; simpl in *; subst; reflexivity.
Qed.

Lemma Metadata_roundtrip_witness :
  Metadata_valid sample_Metadata ∧ Metadata_within_bounds sample_Metadata
  ∧ decodeMetadata (Metadata_bytes None sample_Metadata) = Ok sample_Metadata
  ∧ decodeMetadata (Metadata_bytes (Some x07) sample_Metadata) = Ok sample_Metadata.
Proof.
  split; [reflexivity |]. split; [exact sample_Metadata_within_bounds |]. split.
  - apply (Metadata_roundtrip None sample_Metadata);
      [reflexivity | exact sample_Metadata_within_bounds | reflexivity | reflexivity].
  - apply (Metadata_roundtrip (Some x07) sample_Metadata);
      [reflexivity | exact sample_Metadata_within_bounds | reflexivity | reflexivity].
Defined.

(** C2: the encoding of [CreateMetadataArgs{name:"Foo", symbol:"FOO",
    uri:"http://x"}] is exactly the 28 bytes of the example: the opcode
    byte 0, the allow_duplicates byte 0, and each string as a
    little-endian u32 length followed by its bytes. *)
Theorem serialize_CreateMetadataArgs_example :
  serialize SCHEMA (OfCreateMetadataArgs (CreateMetadataArgs.new "Foo" "FOO" "http://x"))
  = Ok [ x00; x00;
         x03; x00; x00; x00; x46; x6f; x6f;
         x03; x00; x00; x00; x46; x4f; x4f;
         x08; x00; x00; x00; x68; x74; x74; x70; x3a; x2f; x2f; x78 ]
  ∧ [ x46; x6f; x6f ] = Buffer_from "Foo"
  ∧ [ x46; x4f; x4f ] = Buffer_from "FOO"
  ∧ [ x68; x74; x74; x70; x3a; x2f; x2f; x78 ] = Buffer_from "http://x"
  ∧ [ x03; x00; x00; x00 ] = writeU32 3
  ∧ [ x08; x00; x00; x00 ] = writeU32 8.
Proof. repeat split; by vm_compute. Qed.

(** C3: for a valid Metadata record within the bounds, the bytes that the
    Metadata schema entry lays out for it, with the [allow_duplicates]
    option absent or present, decode; every strict prefix of them fails
    to decode, with [MalformedInput], instead of giving a record. *)
Theorem decodeMetadata_truncated (allow_duplicates : option byte) (R : Metadata.t) :
  Metadata_valid R → Metadata_within_bounds R →
  let full := Metadata_bytes allow_duplicates R in
  decodeMetadata full = Ok (Metadata_decoded R)
  ∧ ∀ B, B `prefix_of` full → (length B < length full)%nat →
         decodeMetadata B = Err MalformedInput.
Proof.
  intros Hm Hb full. split.
  - subst full. rewrite <- (app_nil_r (Metadata_bytes _ _)).
    by apply decodeMetadata_Metadata_bytes.
  - intros B [q Hfull] Hlen.
    assert (q ≠ []) as Hq.
    { intros ->. rewrite app_nil_r in Hfull. rewrite Hfull in Hlen. lia. }
    pose proof (deserializeFields_Metadata_bytes allow_duplicates R [] Hm Hb) as Hd.
    rewrite app_nil_r in Hd. fold full in Hd. rewrite Hfull in Hd.
    unfold decodeMetadata, deserializeBorsh. rewrite schema_get_Metadata.
    cbn [kind fields]. rewrite decide_True by done.
    by rewrite (deserializeFields_cut _ _ _ _ _ Hd Hq).
Qed.

(** The first ten bytes of the sample record's bytes, and all but the last
    byte of its bytes with the option present. *)
Lemma decodeMetadata_truncated_witness :
  decodeMetadata (take 10 (Metadata_bytes None sample_Metadata)) = Err MalformedInput
  ∧ decodeMetadata (take 59 (Metadata_bytes (Some x07) sample_Metadata))
    = Err MalformedInput.
Proof.
  split.
  - apply (decodeMetadata_truncated None sample_Metadata eq_refl
             sample_Metadata_within_bounds); [apply prefix_take | vm_compute; lia].
  - apply (decodeMetadata_truncated (Some x07) sample_Metadata eq_refl
             sample_Metadata_within_bounds); [apply prefix_take | vm_compute; lia].
Defined.

(** C9: [MAX_METADATA_LEN] is 474, the sum 32 + 32 + 10 + 200 + 200 of
    the mint, the three length bounds and the slack. *)
Theorem MAX_METADATA_LEN_value :
  MAX_METADATA_LEN = 474
  ∧ MAX_METADATA_LEN = 32 + 32 + 10 + 200 + 200
  ∧ MAX_NAME_LENGTH = 32 ∧ MAX_SYMBOL_LENGTH = 10 ∧ MAX_URI_LENGTH = 200.
Proof. repeat split. Qed.

(** ** The arrays under the builders *)

Section BuilderFacts.
Variable E : Externals.
Implicit Types (σ : Store) (il cl : list TransactionInstruction) (sl : list Account).

Lemma push_instruction_run σ (r : nat) il (i : TransactionInstruction) :
  instructionArrays σ !! r = Some il →
  push_instruction r i σ
  = (Ok (), mkStore (<[r := il ++ [i]]> (instructionArrays σ))
                    (signerArrays σ) (generated σ) (cache σ)).
Proof. intros H. unfold push_instruction. by rewrite H. Qed.

Lemma push_call_Ok σ (r : nat) (i : TransactionInstruction) :
  push_call r (Ok i) σ = push_instruction r i σ.
Proof.
  unfold push_call, push_instruction. by destruct (instructionArrays σ !! r).
Qed.

Lemma push_call_throws σ (r : nat) il (e : Error) :
  instructionArrays σ !! r = Some il → push_call r (Err e) σ = (Err e, σ).
Proof. intros H. unfold push_call. by rewrite H. Qed.

Lemma SystemProgram_createAccount_accepts (fromPubkey newAccountPubkey : PublicKey)
    (lamports space : Z) (programId : PublicKey) :
  ns64 lamports → ns64 space →
  SystemProgram.createAccount fromPubkey newAccountPubkey lamports space programId
  = Ok (SystemProgram_createAccount fromPubkey newAccountPubkey lamports space programId).
Proof. intros Hl Hs. unfold SystemProgram.createAccount. by rewrite decide_True. Qed.

Lemma SystemProgram_createAccount_rejects (fromPubkey newAccountPubkey : PublicKey)
    (lamports space : Z) (programId : PublicKey) :
  ¬ (ns64 lamports ∧ ns64 space) →
  SystemProgram.createAccount fromPubkey newAccountPubkey lamports space programId
  = Err RangeError.
Proof. intros H. unfold SystemProgram.createAccount. by rewrite decide_False. Qed.

Lemma push_signer_run σ (r : nat) sl (a : Account) :
  signerArrays σ !! r = Some sl →
  push_signer r a σ
  = (Ok (), mkStore (instructionArrays σ) (<[r := sl ++ [a]]> (signerArrays σ))
                    (generated σ) (cache σ)).
Proof. intros H. unfold push_signer. by rewrite H. Qed.

Lemma createUninitializedAccount_run σ (instructions signers : nat) il sl
    (payer : PublicKey) (amount : Z) :
  instructionArrays σ !! instructions = Some il →
  signerArrays σ !! signers = Some sl →
  ns64 amount → ns64 (AccountLayout_span E) →
  let account := generateKeypair E (generated σ) in
  createUninitializedAccount E instructions payer amount signers σ
  = (Ok (publicKey account),
     mkStore (<[instructions :=
                  il ++ [SystemProgram_createAccount payer (publicKey account) amount
                           (AccountLayout_span E) (TOKEN_PROGRAM_ID E)]]>
                (instructionArrays σ))
             (<[signers := sl ++ [account]]> (signerArrays σ))
             (S (generated σ)) (cache σ)).
Proof.
  intros Hi Hs Ha Hspan account. unfold createUninitializedAccount, new_Account.
  m_unfold. rewrite SystemProgram_createAccount_accepts, push_call_Ok by done.
  erewrite push_instruction_run by exact Hi.
  erewrite push_signer_run by exact Hs. reflexivity.
Qed.

(** An amount or a size that [SystemProgram.createAccount] cannot write:
    the key pair is generated, nothing is pushed. *)
Lemma createUninitializedAccount_throws σ (instructions signers : nat) il
    (payer : PublicKey) (amount : Z) :
  instructionArrays σ !! instructions = Some il →
  ¬ (ns64 amount ∧ ns64 (AccountLayout_span E)) →
  createUninitializedAccount E instructions payer amount signers σ
  = (Err RangeError,
     mkStore (instructionArrays σ) (signerArrays σ) (S (generated σ)) (cache σ)).
Proof.
  intros Hi Hn. unfold createUninitializedAccount, new_Account. m_unfold.
  rewrite SystemProgram_createAccount_rejects by done.
  by rewrite (push_call_throws _ _ il).
Qed.

Lemma createTokenAccount_run σ (instructions signers : nat) il sl
    (payer mint owner : PublicKey) (accountRentExempt : Z) :
  instructionArrays σ !! instructions = Some il →
  signerArrays σ !! signers = Some sl →
  ns64 accountRentExempt → ns64 (AccountLayout_span E) →
  let account := generateKeypair E (generated σ) in
  createTokenAccount E instructions payer accountRentExempt mint owner signers σ
  = (Ok (publicKey account),
     mkStore (<[instructions :=
                  il ++ [SystemProgram_createAccount payer (publicKey account)
                           accountRentExempt (AccountLayout_span E) (TOKEN_PROGRAM_ID E);
                         Token_createInitAccountInstruction (TOKEN_PROGRAM_ID E) mint
                           (publicKey account) owner]]>
                (instructionArrays σ))
             (<[signers := sl ++ [account]]> (signerArrays σ))
             (S (generated σ)) (cache σ)).
Proof.
  intros Hi Hs Ha Hspan account. unfold createTokenAccount. m_unfold.
  rewrite (createUninitializedAccount_run σ _ _ il sl) by done.
  unfold Token.createInitAccountInstruction. rewrite push_call_Ok.
  erewrite push_instruction_run by (cbn; apply lookup_insert_eq).
  cbn. by rewrite insert_insert_eq, <- app_assoc.
Qed.

Lemma createTokenAccount_throws σ (instructions signers : nat) il
    (payer mint owner : PublicKey) (accountRentExempt : Z) :
  instructionArrays σ !! instructions = Some il →
  ¬ (ns64 accountRentExempt ∧ ns64 (AccountLayout_span E)) →
  createTokenAccount E instructions payer accountRentExempt mint owner signers σ
  = (Err RangeError,
     mkStore (instructionArrays σ) (signerArrays σ) (S (generated σ)) (cache σ)).
Proof.
  intros Hi Hn. unfold createTokenAccount. m_unfold.
  by rewrite (createUninitializedAccount_throws σ _ _ il).
Qed.

Lemma find_filter {A} (P : A → bool) (l : list A) (x : A) (rest : list A) :
  List.filter P l = x :: rest → List.find P l = Some x.
Proof.
  induction l as [| a l IH]; [done |]. simpl.
  destruct (P a); [by intros [= ->] | exact IH].
Qed.

Lemma count_app (P : TransactionInstruction → bool) il cl :
  count P (il ++ cl) = (count P il + count P cl)%nat.
Proof. unfold count. by rewrite List.filter_app, length_app. Qed.
End BuilderFacts.

(** ** The builders *)

Section BuilderProperties.
Variable E : Externals.
Implicit Types (σ : Store) (il cl : list TransactionInstruction) (sl : list Account).

Lemma serialize_CreateMetadataArgs (name symbol uri : string) :
  serialize SCHEMA (OfCreateMetadataArgs (CreateMetadataArgs.new name symbol uri))
  = Ok (x00 :: x00 :: writeString name ++ writeString symbol ++ writeString uri).
Proof.
  unfold serialize. cbn [constructor].
  change (schema_get SCHEMA CreateMetadataArgs_class)
    with (Some {| kind := "struct";
                  fields := [ ("instruction", U8); ("allow_duplicates", U8);
                              ("name", StringT); ("symbol", StringT);
                              ("uri", StringT) ] |}).
  cbn [kind fields]. rewrite decide_True by done.
  cbn [serializeStruct get_field].
  change (CreateMetadataArgs.get _ "instruction") with (JNumber 0).
  change (CreateMetadataArgs.get _ "allow_duplicates") with (JBoolean false).
  change (CreateMetadataArgs.get _ "name") with (JString name).
  change (CreateMetadataArgs.get _ "symbol") with (JString symbol).
  change (CreateMetadataArgs.get _ "uri") with (JString uri).
  cbn [serializeField]. unfold writeU8. rewrite !decide_True by lia.
  result_unfold. by rewrite app_nil_r.
Qed.

Lemma serialize_UpdateMetadataArgs (uri : string) :
  serialize SCHEMA (OfUpdateMetadataArgs (UpdateMetadataArgs.new uri))
  = Ok (x01 :: writeString uri ++ [x00]).
Proof.
  unfold serialize. cbn [constructor].
  change (schema_get SCHEMA UpdateMetadataArgs_class)
    with (Some {| kind := "struct";
                  fields := [ ("instruction", U8); ("uri", StringT);
                              ("non_unique_specific_update_authority", U8) ] |}).
  cbn [kind fields]. rewrite decide_True by done.
  cbn [serializeStruct get_field].
  change (UpdateMetadataArgs.get _ "instruction") with (JNumber 1).
  change (UpdateMetadataArgs.get _ "uri") with (JString uri).
  change (UpdateMetadataArgs.get _ "non_unique_specific_update_authority")
    with (JNumber 0).
  cbn [serializeField]. unfold writeU8. rewrite !decide_True by lia.
  result_unfold. reflexivity.
Qed.

(** C4, amended: for every symbol, name, uri and keys for which the two
    address derivations succeed, [createMetadata] appends exactly one
    instruction to the instruction list; its key list has the 8 entries
    metadata-owner (writable), metadata (writable), mint,
    mint-authority (signer), payer (signer), update-authority (signer),
    system program, rent sysvar, in this order, with every other flag
    off, and nothing else in the store changes.  When a derivation
    throws, [createMetadata] throws the same error and appends
    nothing. *)
Theorem createMetadata_eight_keys σ (symbol name uri : string)
    (mintKey mintAuthorityKey payer updateAuthority : PublicKey)
    (instructions signers : nat) il :
  instructionArrays σ !! instructions = Some il →
  let run := createMetadata E symbol name uri mintKey mintAuthorityKey instructions
               payer updateAuthority signers σ in
  match findProgramAddress E (metadata_seeds E mintKey) (programIds_metadata E),
        findProgramAddress E (metadata_owner_seeds E name symbol) (programIds_metadata E)
  with
  | Ok (metadataAccount, _), Ok (metadataOwnerAccount, _) =>
      let keys :=
        [ {| pubkey := metadataOwnerAccount; isSigner := false; isWritable := true |};
          {| pubkey := metadataAccount; isSigner := false; isWritable := true |};
          {| pubkey := mintKey; isSigner := false; isWritable := false |};
          {| pubkey := mintAuthorityKey; isSigner := true; isWritable := false |};
          {| pubkey := payer; isSigner := true; isWritable := false |};
          {| pubkey := updateAuthority; isSigner := true; isWritable := false |};
          {| pubkey := SystemProgram_programId E;
             isSigner := false; isWritable := false |};
          {| pubkey := SYSVAR_RENT_PUBKEY E; isSigner := false; isWritable := false |} ] in
      ∃ (data : list byte),
        run
        = (Ok (),
           mkStore (<[instructions :=
                        il ++ [new_TransactionInstruction keys (programIds_metadata E)
                                 data]]>
                      (instructionArrays σ))
                   (signerArrays σ) (generated σ) (cache σ))
        ∧ serialize SCHEMA (OfCreateMetadataArgs (CreateMetadataArgs.new name symbol uri))
          = Ok data
        ∧ length keys = 8%nat
  | Err e, _ | Ok _, Err e => run = (Err e, σ)
  end.
Proof.
  intros Hi run. subst run. unfold metadata_seeds, metadata_owner_seeds, createMetadata.
  m_unfold.
  destruct (findProgramAddress E [_; _; _] _) as [[metadataAccount b1] | e]; [| done].
  destruct (findProgramAddress E [_; _; _; _] _) as [[metadataOwnerAccount b2] | e];
    [| done].
  eexists. split; [| split].
  - rewrite serialize_CreateMetadataArgs.
    by rewrite (push_instruction_run σ _ il).
  - apply serialize_CreateMetadataArgs.
  - reflexivity.
Qed.

(** A derivation that fails is the only way [createMetadata] fails on an
    allocated instruction list, and then nothing is appended. *)
Lemma createMetadata_derivation_fails σ (symbol name uri : string)
    (mintKey mintAuthorityKey payer updateAuthority : PublicKey)
    (instructions signers : nat) (e : Error) :
  findProgramAddress E (metadata_seeds E mintKey) (programIds_metadata E) = Err e
  ∨ findProgramAddress E (metadata_owner_seeds E name symbol) (programIds_metadata E)
    = Err e →
  ∃ e', createMetadata E symbol name uri mintKey mintAuthorityKey instructions
          payer updateAuthority signers σ = (Err e', σ).
Proof.
  unfold metadata_seeds, metadata_owner_seeds, createMetadata. m_unfold.
  intros [H | H].
  - rewrite H. eauto.
  - destruct (findProgramAddress E [_; _; _] _) as [[a b] |]; [| eauto].
    rewrite H. eauto.
Qed.

(** C7, amended: for every input for which the two address derivations
    succeed, [updateMetadata] appends exactly one instruction; its key
    list is metadata (writable), update-authority (signer),
    metadata-owner, in this order and with every other flag off, and its
    payload starts with the opcode byte 1, the [instruction] value of
    [UpdateMetadataArgs].  When a derivation throws, [updateMetadata]
    throws the same error and appends nothing. *)
Theorem updateMetadata_three_keys σ (symbol name uri : string)
    (mintKey updateAuthority : PublicKey) (instructions signers : nat) il :
  instructionArrays σ !! instructions = Some il →
  let run := updateMetadata E symbol name uri mintKey updateAuthority instructions
               signers σ in
  match findProgramAddress E (metadata_seeds E mintKey) (programIds_metadata E),
        findProgramAddress E (metadata_owner_seeds E name symbol) (programIds_metadata E)
  with
  | Ok (metadataAccount, _), Ok (metadataOwnerAccount, _) =>
      ∃ (data : list byte),
        run
        = (Ok (),
           mkStore (<[instructions :=
                        il ++ [new_TransactionInstruction
                                 [ {| pubkey := metadataAccount;
                                      isSigner := false; isWritable := true |};
                                   {| pubkey := updateAuthority;
                                      isSigner := true; isWritable := false |};
                                   {| pubkey := metadataOwnerAccount;
                                      isSigner := false; isWritable := false |} ]
                                 (programIds_metadata E) data]]>
                      (instructionArrays σ))
                   (signerArrays σ) (generated σ) (cache σ))
        ∧ serialize SCHEMA (OfUpdateMetadataArgs (UpdateMetadataArgs.new uri)) = Ok data
        ∧ head data = Some x01
        ∧ byte_of_Z (UpdateMetadataArgs.instruction (UpdateMetadataArgs.new uri)) = x01
  | Err e, _ | Ok _, Err e => run = (Err e, σ)
  end.
Proof.
  intros Hi run. subst run. unfold metadata_seeds, metadata_owner_seeds, updateMetadata.
  m_unfold.
  destruct (findProgramAddress E [_; _; _] _) as [[metadataAccount b1] | e]; [| done].
  destruct (findProgramAddress E [_; _; _; _] _) as [[metadataOwnerAccount b2] | e];
    [| done].
  eexists. split; [| split; [| split]].
  - rewrite serialize_UpdateMetadataArgs.
    by rewrite (push_instruction_run σ _ il).
  - apply serialize_UpdateMetadataArgs.
  - reflexivity.
  - reflexivity.
Qed.

(** C10: for a token account that is not native, [ensureSplAccount]
    returns the account's own key and leaves the store, and with it the
    instruction, cleanup and signer lists, as it was.  A call that does
    anything else was made on a native account, and on a native account
    the call creates a fresh account for the wrapped-native mint and
    schedules its close instruction on the cleanup list, when the amount
    is one that [SystemProgram.createAccount] can write; with any other
    amount it throws before anything is pushed. *)
Theorem ensureSplAccount_frame σ (instructions cleanupInstructions signers : nat)
    (toCheck : TokenAccount.t) (payer : PublicKey) (amount : Z) :
  let run := ensureSplAccount E instructions cleanupInstructions toCheck payer
               amount signers σ in
  (AccountInfo.isNative (TokenAccount.info toCheck) = false →
     run = (Ok (TokenAccount.pubkey toCheck), σ))
  ∧ (run ≠ (Ok (TokenAccount.pubkey toCheck), σ) →
     AccountInfo.isNative (TokenAccount.info toCheck) = true)
  ∧ (AccountInfo.isNative (TokenAccount.info toCheck) = true →
     ∀ il cl sl,
       instructionArrays σ !! instructions = Some il →
       instructionArrays σ !! cleanupInstructions = Some cl →
       signerArrays σ !! signers = Some sl →
       let account := generateKeypair E (generated σ) in
       let created :=
         il ++ [ SystemProgram_createAccount payer (publicKey account) amount
                   (AccountLayout_span E) (TOKEN_PROGRAM_ID E);
                 Token_createInitAccountInstruction (TOKEN_PROGRAM_ID E)
                   (WRAPPED_SOL_MINT E) (publicKey account) payer ] in
       let close :=
         Token_createCloseAccountInstruction (TOKEN_PROGRAM_ID E)
           (publicKey account) payer payer [] in
       if decide (ns64 amount ∧ ns64 (AccountLayout_span E))
       then
         run = (Ok (publicKey account),
                mkStore (<[cleanupInstructions :=
                             (if decide (instructions = cleanupInstructions)
                              then created else cl) ++ [close]]>
                           (<[instructions := created]> (instructionArrays σ)))
                        (<[signers := sl ++ [account]]> (signerArrays σ))
                        (S (generated σ)) (cache σ))
       else
         run = (Err RangeError,
                mkStore (instructionArrays σ) (signerArrays σ) (S (generated σ))
                        (cache σ))).
Proof.
  intros run. subst run. unfold ensureSplAccount.
  destruct (AccountInfo.isNative (TokenAccount.info toCheck)); cbn [negb].
  - split; [done |]. split; [done |].
    intros _ il cl sl Hi Hc Hs. cbn zeta.
    destruct (decide (ns64 amount ∧ ns64 (AccountLayout_span E))) as [[Ha Hspan] | Hn].
    + m_unfold. rewrite (createUninitializedAccount_run E σ _ _ il sl) by done.
      unfold Token.createInitAccountInstruction, Token.createCloseAccountInstruction.
      rewrite push_call_Ok.
      erewrite push_instruction_run by (cbn; apply lookup_insert_eq).
      cbn [instructionArrays signerArrays generated cache].
      rewrite insert_insert_eq, <- app_assoc. rewrite push_call_Ok.
      erewrite push_instruction_run; [reflexivity |].
      cbn [instructionArrays]. rewrite lookup_insert.
      by destruct (decide (instructions = cleanupInstructions)).
    + m_unfold. by rewrite (createUninitializedAccount_throws E σ _ _ il).
  - split; [done |]. split; [| done]. intros H. by destruct H.
Qed.
End BuilderProperties.

Section AccountResolution.
Variable E : Externals.
Implicit Types (σ : Store) (il cl : list TransactionInstruction) (sl : list Account).

(** C5, amended: when the mint is the wrapped-native mint and the rent
    amount is one that [SystemProgram.createAccount] can write, whatever
    the cache holds, [findOrCreateAccountByMint] creates a fresh account:
    the instruction list gains exactly one creation instruction (followed
    by the instruction that initialises the account) and the cleanup list
    gains exactly one close instruction, for the new account.  With any
    other rent amount the call throws a [RangeError] and neither list
    changes. *)
Theorem findOrCreateAccountByMint_wrapped_sol σ (payer owner mint : PublicKey)
    (instructions cleanupInstructions signers : nat) (accountRentExempt : Z)
    (excluded : option (gset string)) il cl sl :
  toBase58 E mint = toBase58 E (WRAPPED_SOL_MINT E) →
  instructionArrays σ !! instructions = Some il →
  instructionArrays σ !! cleanupInstructions = Some cl →
  signerArrays σ !! signers = Some sl →
  let run := findOrCreateAccountByMint E payer owner instructions cleanupInstructions
               accountRentExempt mint signers excluded σ in
  let account := generateKeypair E (generated σ) in
  let created :=
    il ++ [ SystemProgram_createAccount payer (publicKey account) accountRentExempt
              (AccountLayout_span E) (TOKEN_PROGRAM_ID E);
            Token_createInitAccountInstruction (TOKEN_PROGRAM_ID E) mint
              (publicKey account) owner ] in
  let close :=
    Token_createCloseAccountInstruction (TOKEN_PROGRAM_ID E)
      (publicKey account) payer payer [] in
  if decide (ns64 accountRentExempt ∧ ns64 (AccountLayout_span E))
  then
    ∃ σ',
      run = (Ok (publicKey account), σ')
      ∧ σ' = mkStore (<[cleanupInstructions :=
                          (if decide (instructions = cleanupInstructions)
                           then created else cl) ++ [close]]>
                        (<[instructions := created]> (instructionArrays σ)))
                     (<[signers := sl ++ [account]]> (signerArrays σ))
                     (S (generated σ)) (cache σ)
      ∧ (∃ il', instructionArrays σ' !! instructions = Some il'
                ∧ count is_creation il' = S (count is_creation il))
      ∧ (∃ cl', instructionArrays σ' !! cleanupInstructions = Some cl'
                ∧ count is_close cl' = S (count is_close cl))
  else
    run = (Err RangeError,
           mkStore (instructionArrays σ) (signerArrays σ) (S (generated σ)) (cache σ)).
Proof.
  intros Hm Hi Hc Hs run account created close.
  assert (run = (toAccount ← createTokenAccount E instructions payer accountRentExempt
                               mint owner signers;
                 push_call cleanupInstructions
                   (Token.createCloseAccountInstruction (TOKEN_PROGRAM_ID E) toAccount
                      payer payer []);;
                 mret toAccount) σ) as ->.
  { subst run. unfold findOrCreateAccountByMint, read_cache.
    unfold mbind at 1. unfold M_bind at 1. cbn [mret M_ret].
    rewrite (bool_decide_eq_true_2 _ Hm). cbn [negb]. by destruct (mjoin _). }
  destruct (decide (ns64 accountRentExempt ∧ ns64 (AccountLayout_span E)))
    as [[Ha Hspan] | Hn].
  - eexists. split; [| split; [reflexivity |]].
    + m_unfold. rewrite (createTokenAccount_run E σ _ _ il sl) by done.
      unfold Token.createCloseAccountInstruction. rewrite push_call_Ok.
      erewrite push_instruction_run; [reflexivity |].
      cbn [instructionArrays]. rewrite lookup_insert.
      destruct (decide (instructions = cleanupInstructions)) as [<- |];
        [reflexivity | exact Hc].
    + cbn [instructionArrays]. split.
      * destruct (decide (instructions = cleanupInstructions)) as [<- | Hne].
        -- eexists. split; [apply lookup_insert_eq |].
           subst created. rewrite !count_app. cbn. lia.
        -- eexists. split; [rewrite lookup_insert_ne by done; apply lookup_insert_eq |].
           subst created. rewrite !count_app. cbn. lia.
      * eexists. split; [apply lookup_insert_eq |].
        destruct (decide (instructions = cleanupInstructions)) as [<- | Hne].
        -- assert (cl = il) as -> by congruence.
           subst created. rewrite !count_app. cbn. lia.
        -- rewrite !count_app. cbn. lia.
  - m_unfold. by rewrite (createTokenAccount_throws E σ _ _ il).
Qed.

(** C6: when the mint is not the wrapped-native mint and exactly one
    cached account matches the mint and the owner and is not excluded,
    [findOrCreateAccountByMint] returns that account's key and leaves
    the store, and with it the instruction, cleanup and signer lists, as
    it was. *)
Theorem findOrCreateAccountByMint_cached σ (payer owner mint : PublicKey)
    (instructions cleanupInstructions signers : nat) (accountRentExempt : Z)
    (excluded : option (gset string)) (acc : TokenAccount.t) :
  toBase58 E mint ≠ toBase58 E (WRAPPED_SOL_MINT E) →
  cache_matches E σ mint owner excluded = [Some acc] →
  findOrCreateAccountByMint E payer owner instructions cleanupInstructions
    accountRentExempt mint signers excluded σ
  = (Ok (TokenAccount.pubkey acc), σ).
Proof.
  intros Hm Hc. unfold cache_matches in Hc. apply find_filter in Hc.
  unfold findOrCreateAccountByMint, read_cache. m_unfold.
  rewrite Hc. cbn [mjoin option_join]. by rewrite (bool_decide_eq_false_2 _ Hm).
Qed.

(** The first match is taken when several accounts match. *)
Lemma findOrCreateAccountByMint_first_match σ (payer owner mint : PublicKey)
    (instructions cleanupInstructions signers : nat) (accountRentExempt : Z)
    (excluded : option (gset string)) (acc : TokenAccount.t)
    (others : list (option TokenAccount.t)) :
  toBase58 E mint ≠ toBase58 E (WRAPPED_SOL_MINT E) →
  cache_matches E σ mint owner excluded = Some acc :: others →
  findOrCreateAccountByMint E payer owner instructions cleanupInstructions
    accountRentExempt mint signers excluded σ
  = (Ok (TokenAccount.pubkey acc), σ).
Proof.
  intros Hm Hc. unfold cache_matches in Hc. apply find_filter in Hc.
  unfold findOrCreateAccountByMint, read_cache. m_unfold.
  rewrite Hc. cbn [mjoin option_join]. by rewrite (bool_decide_eq_false_2 _ Hm).
Qed.
End AccountResolution.

(** ** Concrete runs *)

(** Counterexample to C4 as stated: with a name of 33 bytes the
    derivation of the metadata-owner address throws, and [createMetadata]
    throws with it; the instruction list stays empty. *)
Lemma createMetadata_eight_keys_counterexample :
  length (Buffer_from sample_long_name) = 33%nat
  ∧ createMetadata sample_externals "FOO" sample_long_name "http://x" (sample_key 40)
      (sample_key 41) 0 sample_payer (sample_key 42) 0 (sample_store (sample_key 40))
    = (Err DerivationError, sample_store (sample_key 40))
  ∧ instructionArrays (sample_store (sample_key 40)) !! 0%nat = Some [].
Proof. repeat split; by vm_compute. Qed.

(** Counterexample to C7 as stated: with a name of 33 bytes the
    derivation of the metadata-owner address throws, and [updateMetadata]
    throws with it; the instruction list stays empty. *)
Lemma updateMetadata_three_keys_counterexample :
  length (Buffer_from sample_long_name) = 33%nat
  ∧ updateMetadata sample_externals "FOO" sample_long_name "http://x" (sample_key 40)
      (sample_key 42) 0 0 (sample_store (sample_key 40))
    = (Err DerivationError, sample_store (sample_key 40))
  ∧ instructionArrays (sample_store (sample_key 40)) !! 0%nat = Some [].
Proof. repeat split; by vm_compute. Qed.

(** Counterexample to C5 as stated: for the wrapped-native mint and a
    rent amount of 2^63, which [SystemProgram.createAccount] cannot
    write, the call throws and both lists stay empty. *)
Lemma findOrCreateAccountByMint_wrapped_sol_counterexample :
  ∃ σ',
    findOrCreateAccountByMint sample_externals sample_payer sample_owner 0 1 (2 ^ 63)
      (sample_key 11) 0 None (sample_store (sample_key 11))
    = (Err RangeError, σ')
    ∧ instructionArrays σ' !! 0%nat = Some []
    ∧ instructionArrays σ' !! 1%nat = Some [].
Proof. eexists. repeat split; by vm_compute. Qed.

Lemma sample_metadata_address :
  findProgramAddress sample_externals (metadata_seeds sample_externals (sample_key 40))
    (programIds_metadata sample_externals)
  = Ok (mkPublicKey (take 32 (Buffer_from "metadata" ++ toBuffer (sample_key 14)
                                ++ toBuffer (sample_key 40))), 255).
Proof. by vm_compute. Defined.

Lemma sample_metadata_owner_address :
  findProgramAddress sample_externals (metadata_owner_seeds sample_externals "Foo" "FOO")
    (programIds_metadata sample_externals)
  = Ok (mkPublicKey (take 32 (Buffer_from "metadata" ++ toBuffer (sample_key 14)
                                ++ Buffer_from "Foo" ++ Buffer_from "FOO")), 255).
Proof. by vm_compute. Defined.

Lemma createMetadata_eight_keys_witness :
  ∃ keys data σ',
    createMetadata sample_externals "FOO" "Foo" "http://x" (sample_key 40)
      (sample_key 41) 0 sample_payer (sample_key 42) 0 (sample_store (sample_key 40))
    = (Ok (), σ')
    ∧ instructionArrays σ' !! 0%nat
      = Some [new_TransactionInstruction keys (sample_key 14) data]
    ∧ pubkey <$> keys
      = [ mkPublicKey (take 32 (Buffer_from "metadata" ++ toBuffer (sample_key 14)
                                  ++ Buffer_from "Foo" ++ Buffer_from "FOO"));
          mkPublicKey (take 32 (Buffer_from "metadata" ++ toBuffer (sample_key 14)
                                  ++ toBuffer (sample_key 40)));
          sample_key 40; sample_key 41; sample_payer; sample_key 42;
          sample_key 0; sample_key 13 ].
Proof.
  pose proof (createMetadata_eight_keys sample_externals (sample_store (sample_key 40))
                "FOO" "Foo" "http://x" (sample_key 40) (sample_key 41) sample_payer
                (sample_key 42) 0 0 [] eq_refl) as H.
  cbv zeta in H. rewrite sample_metadata_address, sample_metadata_owner_address in H.
  destruct H as (data & Hrun & _ & _).
  eexists. exists data. eexists. split; [exact Hrun |]. split.
  - cbn [instructionArrays]. apply lookup_insert_eq.
  - by vm_compute.
Defined.

Lemma updateMetadata_three_keys_witness :
  ∃ keys data σ',
    updateMetadata sample_externals "FOO" "Foo" "http://x" (sample_key 40)
      (sample_key 42) 0 0 (sample_store (sample_key 40))
    = (Ok (), σ')
    ∧ instructionArrays σ' !! 0%nat
      = Some [new_TransactionInstruction keys (sample_key 14) data]
    ∧ length keys = 3%nat
    ∧ head data = Some x01.
Proof.
  pose proof (updateMetadata_three_keys sample_externals (sample_store (sample_key 40))
                "FOO" "Foo" "http://x" (sample_key 40) (sample_key 42) 0 0 []
                eq_refl) as H.
  cbv zeta in H. rewrite sample_metadata_address, sample_metadata_owner_address in H.
  destruct H as (data & Hrun & _ & Hhead & _).
  eexists. exists data. eexists. split; [exact Hrun |]. split; [| split].
  - cbn [instructionArrays]. apply lookup_insert_eq.
  - reflexivity.
  - exact Hhead.
Defined.

Lemma ensureSplAccount_frame_witness :
  ensureSplAccount sample_externals 0 1 (sample_account (sample_key 40) false)
    sample_payer 7 0 (sample_store (sample_key 40))
  = (Ok (sample_key 30), sample_store (sample_key 40))
  ∧ ∃ σ', ensureSplAccount sample_externals 0 1 (sample_account (sample_key 11) true)
            sample_payer 7 0 (sample_store (sample_key 11))
          = (Ok (sample_key 100), σ')
          ∧ instructionArrays σ' !! 1%nat
            = Some [ Token_createCloseAccountInstruction (sample_key 10) (sample_key 100)
                       sample_payer sample_payer [] ].
Proof.
  split.
  - apply (ensureSplAccount_frame sample_externals (sample_store (sample_key 40)) 0 1 0
             (sample_account (sample_key 40) false) sample_payer 7).
    reflexivity.
  - destruct (ensureSplAccount_frame sample_externals (sample_store (sample_key 11))
                0 1 0 (sample_account (sample_key 11) true) sample_payer 7)
      as (_ & _ & H).
    specialize (H eq_refl [] [] [] eq_refl eq_refl eq_refl). cbv zeta in H.
    rewrite decide_True in H by (split; range_solve).
    eexists. split; [exact H |]. by vm_compute.
Defined.

Lemma findOrCreateAccountByMint_wrapped_sol_witness :
  cache_matches sample_externals (sample_store (sample_key 11)) (sample_key 11)
    sample_owner None = [Some (sample_account (sample_key 11) false)]
  ∧ ∃ σ',
      findOrCreateAccountByMint sample_externals sample_payer sample_owner 0 1 7
        (sample_key 11) 0 None (sample_store (sample_key 11))
      = (Ok (sample_key 100), σ')
      ∧ (∃ il', instructionArrays σ' !! 0%nat = Some il' ∧ count is_creation il' = 1%nat)
      ∧ (∃ cl', instructionArrays σ' !! 1%nat = Some cl' ∧ count is_close cl' = 1%nat).
Proof.
  split; [by vm_compute |].
  pose proof (findOrCreateAccountByMint_wrapped_sol sample_externals
                (sample_store (sample_key 11)) sample_payer sample_owner (sample_key 11)
                0 1 0 7 None [] [] [] eq_refl eq_refl eq_refl eq_refl) as H.
  cbv zeta in H. rewrite decide_True in H by (split; range_solve).
  destruct H as (σ' & Hrun & _ & Hi & Hc).
  exists σ'. split; [exact Hrun |]. split; [exact Hi | exact Hc].
Defined.

Lemma findOrCreateAccountByMint_cached_witness :
  findOrCreateAccountByMint sample_externals sample_payer sample_owner 0 1 7
    (sample_key 40) 0 None (sample_store (sample_key 40))
  = (Ok (sample_key 30), sample_store (sample_key 40)).
Proof.
  apply (findOrCreateAccountByMint_cached sample_externals (sample_store (sample_key 40))
           sample_payer sample_owner (sample_key 40) 0 1 0 7 None
           (sample_account (sample_key 40) false)).
  - by vm_compute.
  - by vm_compute.
Defined.

(** * Further properties *)

(** ** The builders only append *)

Lemma append_only_refl (σ : Store) : append_only σ σ.
Proof. repeat split; intros; reflexivity. Qed.

Lemma append_only_trans (σ1 σ2 σ3 : Store) :
  append_only σ1 σ2 → append_only σ2 σ3 → append_only σ1 σ3.
Proof.
  intros (Hi & Hs & Hg & Hc) (Hi' & Hs' & Hg' & Hc'). repeat split.
  - intros r. by transitivity (instructionArrays σ2 !! r).
  - intros r. by transitivity (signerArrays σ2 !! r).
  - lia.
  - congruence.
Qed.

Lemma option_Forall2_prefix_insert {A} (m : gmap nat (list A)) (r r' : nat)
    (l added : list A) :
  m !! r = Some l →
  option_Forall2 prefix (m !! r') (<[r := l ++ added]> m !! r').
Proof.
  intros H. destruct (decide (r = r')) as [<- | Hne].
  - rewrite lookup_insert_eq, H. constructor. by apply prefix_app_r.
  - rewrite lookup_insert_ne by done. reflexivity.
Qed.

Lemma appends_only_ret {A} (a : A) : appends_only (mret a).
Proof. intros σ. apply append_only_refl. Qed.

Lemma appends_only_lift {A} (r : Result A) : appends_only (lift r).
Proof. intros σ. apply append_only_refl. Qed.

Lemma appends_only_read_cache : appends_only read_cache.
Proof. intros σ. apply append_only_refl. Qed.

Lemma appends_only_bind {A B} (m : M A) (f : A → M B) :
  appends_only m → (∀ a, appends_only (f a)) → appends_only (m ≫= f).
Proof.
  intros Hm Hf σ. unfold mbind, M_bind. specialize (Hm σ).
  destruct (m σ) as [[a | e] σ']; [| exact Hm].
  eapply append_only_trans; [exact Hm | apply Hf].
Qed.

Lemma appends_only_push_instruction (r : nat) (i : TransactionInstruction) :
  appends_only (push_instruction r i).
Proof.
  intros σ. unfold push_instruction.
  destruct (instructionArrays σ !! r) as [l |] eqn:Hl; [| apply append_only_refl].
  repeat split; cbn; try reflexivity.
  intros r'. by apply option_Forall2_prefix_insert.
Qed.

Lemma appends_only_push_call (r : nat) (call : Result TransactionInstruction) :
  appends_only (push_call r call).
Proof.
  intros σ. unfold push_call.
  destruct (instructionArrays σ !! r) as [l |] eqn:Hl; [| apply append_only_refl].
  destruct call as [i | e]; [| apply append_only_refl].
  apply appends_only_push_instruction.
Qed.

Lemma appends_only_push_signer (r : nat) (a : Account) :
  appends_only (push_signer r a).
Proof.
  intros σ. unfold push_signer.
  destruct (signerArrays σ !! r) as [l |] eqn:Hl; [| apply append_only_refl].
  repeat split; cbn; try reflexivity.
  intros r'. by apply option_Forall2_prefix_insert.
Qed.

Lemma appends_only_new_Account (E : Externals) : appends_only (new_Account E).
Proof. intros σ. repeat split; cbn; try reflexivity. lia. Qed.

Ltac appends_only_step :=
  first
    [ apply appends_only_ret
    | apply appends_only_lift
    | apply appends_only_read_cache
    | apply appends_only_push_instruction
    | apply appends_only_push_call
    | apply appends_only_push_signer
    | apply appends_only_new_Account
    | apply appends_only_bind; [| intros ?] ].

(** X1: every builder of the file only appends.  Whatever its arguments
    and whether it returns or throws, each array that was there is still
    there and starts with its old contents, no array appears, no key pair
    is given back and the cache is untouched. *)
Theorem builders_append_only (E : Externals) :
  (∀ i c toCheck payer amount s,
     appends_only (ensureSplAccount E i c toCheck payer amount s))
  ∧ (∀ i payer s owner space,
       appends_only (createTempMemoryAccount E i payer s owner space))
  ∧ (∀ i payer amount s, appends_only (createUninitializedMint E i payer amount s))
  ∧ (∀ i payer amount s, appends_only (createUninitializedAccount E i payer amount s))
  ∧ (∀ i ata payer wallet mint,
       appends_only (createAssociatedTokenAccountInstruction E i ata payer wallet mint))
  ∧ (∀ i payer rent decimals owner freeze s,
       appends_only (createMint E i payer rent decimals owner freeze s))
  ∧ (∀ symbol name uri mintKey updateAuthority i s,
       appends_only (updateMetadata E symbol name uri mintKey updateAuthority i s))
  ∧ (∀ symbol name uri mintKey mintAuthorityKey i payer updateAuthority s,
       appends_only (createMetadata E symbol name uri mintKey mintAuthorityKey i
                       payer updateAuthority s))
  ∧ (∀ i payer rent mint owner s,
       appends_only (createTokenAccount E i payer rent mint owner s))
  ∧ (∀ payer owner i c rent mint s excluded,
       appends_only (findOrCreateAccountByMint E payer owner i c rent mint s excluded)).
Proof.
  assert (∀ i payer amount s,
            appends_only (createUninitializedAccount E i payer amount s)) as Hua.
  { intros. unfold createUninitializedAccount. repeat appends_only_step. }
  assert (∀ i payer amount s,
            appends_only (createUninitializedMint E i payer amount s)) as Hum.
  { intros. unfold createUninitializedMint. repeat appends_only_step. }
  assert (∀ i payer rent mint owner s,
            appends_only (createTokenAccount E i payer rent mint owner s)) as Hta.
  { intros. unfold createTokenAccount.
    apply appends_only_bind; [apply Hua | intros ?]. repeat appends_only_step. }
  repeat apply conj; try done.
  - intros. unfold ensureSplAccount.
    destruct (negb _); [apply appends_only_ret |].
    apply appends_only_bind; [apply Hua | intros ?]. repeat appends_only_step.
  - intros. unfold createTempMemoryAccount. repeat appends_only_step.
  - intros. unfold createAssociatedTokenAccountInstruction. repeat appends_only_step.
  - intros. unfold createMint.
    apply appends_only_bind; [apply Hum | intros ?]. repeat appends_only_step.
  - intros. unfold updateMetadata.
    apply appends_only_bind; [apply appends_only_lift | intros [? ?]].
    apply appends_only_bind; [apply appends_only_lift | intros [? ?]].
    repeat appends_only_step.
  - intros. unfold createMetadata.
    apply appends_only_bind; [apply appends_only_lift | intros [? ?]].
    apply appends_only_bind; [apply appends_only_lift | intros [? ?]].
    repeat appends_only_step.
  - intros. unfold findOrCreateAccountByMint.
    apply appends_only_bind; [apply appends_only_read_cache | intros cache].
    assert (∀ b : bool,
              appends_only
                (toAccount ← createTokenAccount E i payer rent mint owner s;
                 (if b
                  then push_call c
                         (Token.createCloseAccountInstruction (TOKEN_PROGRAM_ID E)
                            toAccount payer payer [])
                  else mret ());;
                 mret toAccount)) as Hcreate.
    { intros b. apply appends_only_bind; [apply Hta | intros ?].
      destruct b; repeat appends_only_step. }
    destruct (mjoin _) as [account |]; [destruct (negb _) |];
      first [apply appends_only_ret | apply Hcreate].
Qed.

(** ** The account builders *)

Section AccountBuilders.
Variable E : Externals.
Implicit Types (σ : Store) (il cl : list TransactionInstruction) (sl : list Account).

(** X2: [createTempMemoryAccount] allocates with zero lamports whatever
    it is given, with [DEFAULT_TEMP_MEM_SPACE] = 65548 bytes when no space
    is passed and the passed space otherwise, for the given owner.  When
    the space is one that [SystemProgram.createAccount] can write, it
    appends that one instruction, makes the new account the last signer
    and returns its key; with any other space it throws a [RangeError]
    and pushes nothing. *)
Theorem createTempMemoryAccount_run σ (instructions signers : nat) il sl
    (payer owner : PublicKey) (space : option Z) :
  instructionArrays σ !! instructions = Some il →
  signerArrays σ !! signers = Some sl →
  let account := generateKeypair E (generated σ) in
  let size := match space with Some n => n | None => 65548 end in
  let run := createTempMemoryAccount E instructions payer signers owner space σ in
  if decide (ns64 size)
  then
    run = (Ok (publicKey account),
           mkStore (<[instructions :=
                        il ++ [SystemProgram_createAccount payer (publicKey account) 0
                                 size owner]]>
                      (instructionArrays σ))
                   (<[signers := sl ++ [account]]> (signerArrays σ))
                   (S (generated σ)) (cache σ))
  else
    run = (Err RangeError,
           mkStore (instructionArrays σ) (signerArrays σ) (S (generated σ)) (cache σ)).
Proof.
  intros Hi Hs account size run. subst run.
  unfold createTempMemoryAccount, new_Account. m_unfold.
  replace (default DEFAULT_TEMP_MEM_SPACE space) with size by (by destruct space).
  destruct (decide (ns64 size)) as [Hsize | Hsize].
  - rewrite SystemProgram_createAccount_accepts, push_call_Ok by (done || range_solve).
    erewrite push_instruction_run by exact Hi.
    by erewrite push_signer_run by exact Hs.
  - rewrite SystemProgram_createAccount_rejects by (by intros [_ ?]).
    by rewrite (push_call_throws _ _ il).
Qed.

(** X3: when the rent amount and [MintLayout.span] are numbers that
    [SystemProgram.createAccount] can write, [createMint] first appends
    the allocation of a fresh account of [MintLayout.span] bytes owned by
    the token program and makes the fresh account the last signer.  With
    decimals between 0 and 255 it then appends the init-mint instruction
    for that same account with the given decimals, owner and freeze
    authority, and returns the account's key: exactly two instructions,
    in this order.  With any other decimals it throws a [RangeError]
    after the allocation and the signer were pushed. *)
Theorem createMint_run σ (instructions signers : nat) il sl
    (payer owner freezeAuthority : PublicKey) (mintRentExempt decimals : Z) :
  instructionArrays σ !! instructions = Some il →
  signerArrays σ !! signers = Some sl →
  ns64 mintRentExempt → ns64 (MintLayout_span E) →
  let account := generateKeypair E (generated σ) in
  let allocation :=
    SystemProgram_createAccount payer (publicKey account) mintRentExempt
      (MintLayout_span E) (TOKEN_PROGRAM_ID E) in
  let run := createMint E instructions payer mintRentExempt decimals owner
               freezeAuthority signers σ in
  if decide (u8 decimals)
  then
    run = (Ok (publicKey account),
           mkStore (<[instructions :=
                        il ++ [allocation;
                               Token_createInitMintInstruction (TOKEN_PROGRAM_ID E)
                                 (publicKey account) decimals owner freezeAuthority]]>
                      (instructionArrays σ))
                   (<[signers := sl ++ [account]]> (signerArrays σ))
                   (S (generated σ)) (cache σ))
  else
    run = (Err RangeError,
           mkStore (<[instructions := il ++ [allocation]]> (instructionArrays σ))
                   (<[signers := sl ++ [account]]> (signerArrays σ))
                   (S (generated σ)) (cache σ)).
Proof.
  intros Hi Hs Hrent Hspan account allocation run. subst run.
  unfold createMint, createUninitializedMint, new_Account. m_unfold.
  rewrite SystemProgram_createAccount_accepts, push_call_Ok by done.
  erewrite push_instruction_run by exact Hi.
  erewrite push_signer_run by exact Hs.
  unfold Token.createInitMintInstruction.
  destruct (decide (u8 decimals)) as [Hd | Hd].
  - rewrite push_call_Ok.
    erewrite push_instruction_run by (cbn; apply lookup_insert_eq).
    cbn. by rewrite insert_insert_eq, <- app_assoc.
  - by erewrite push_call_throws by (cbn; apply lookup_insert_eq).
Qed.

(** X4: [createAssociatedTokenAccountInstruction] appends exactly one
    instruction for the associated-token program, with an empty payload
    and the 7 keys payer (signer, writable), associated address
    (writable), wallet, mint, system program, token program, rent sysvar;
    the payer is its only signer.  No key pair is generated and no signer
    list is touched. *)
Theorem createAssociatedTokenAccountInstruction_run σ (instructions : nat) il
    (associatedTokenAddress payer walletAddress splTokenMintAddress : PublicKey) :
  instructionArrays σ !! instructions = Some il →
  let keys :=
    [ {| pubkey := payer; isSigner := true; isWritable := true |};
      {| pubkey := associatedTokenAddress; isSigner := false; isWritable := true |};
      {| pubkey := walletAddress; isSigner := false; isWritable := false |};
      {| pubkey := splTokenMintAddress; isSigner := false; isWritable := false |};
      {| pubkey := SystemProgram_programId E; isSigner := false; isWritable := false |};
      {| pubkey := TOKEN_PROGRAM_ID E; isSigner := false; isWritable := false |};
      {| pubkey := SYSVAR_RENT_PUBKEY E; isSigner := false; isWritable := false |} ] in
  createAssociatedTokenAccountInstruction E instructions associatedTokenAddress
    payer walletAddress splTokenMintAddress σ
  = (Ok (),
     mkStore (<[instructions :=
                  il ++ [new_TransactionInstruction keys
                           (SPL_ASSOCIATED_TOKEN_ACCOUNT_PROGRAM_ID E) []]]>
                (instructionArrays σ))
             (signerArrays σ) (generated σ) (cache σ))
  ∧ length keys = 7%nat
  ∧ pubkey <$> List.filter isSigner keys = [payer].
Proof.
  intros Hi keys. split; [| done].
  unfold createAssociatedTokenAccountInstruction.
  by rewrite (push_instruction_run σ _ il).
Qed.

(** X5: when the rent amount and [AccountLayout.span] are numbers that
    [SystemProgram.createAccount] can write, [createTokenAccount] appends
    exactly two instructions, in this order: the allocation of a fresh
    account of [AccountLayout.span] bytes owned by the token program, and
    the init-account instruction that binds that same account to the
    given mint and owner.  The fresh account becomes the last signer and
    its key is returned.  With any other amount it throws a [RangeError]
    and no array changes. *)
Theorem createTokenAccount_binds_fresh_account σ (instructions signers : nat) il sl
    (payer mint owner : PublicKey) (accountRentExempt : Z) :
  instructionArrays σ !! instructions = Some il →
  signerArrays σ !! signers = Some sl →
  let account := generateKeypair E (generated σ) in
  let run := createTokenAccount E instructions payer accountRentExempt mint owner
               signers σ in
  if decide (ns64 accountRentExempt ∧ ns64 (AccountLayout_span E))
  then
    ∃ σ',
      run = (Ok (publicKey account), σ')
      ∧ instructionArrays σ' !! instructions
        = Some (il ++ [SystemProgram_createAccount payer (publicKey account)
                         accountRentExempt (AccountLayout_span E) (TOKEN_PROGRAM_ID E);
                       Token_createInitAccountInstruction (TOKEN_PROGRAM_ID E) mint
                         (publicKey account) owner])
      ∧ signerArrays σ' !! signers = Some (sl ++ [account])
      ∧ (∀ r, r ≠ instructions → instructionArrays σ' !! r = instructionArrays σ !! r)
      ∧ (∀ r, r ≠ signers → signerArrays σ' !! r = signerArrays σ !! r)
  else
    ∃ σ',
      run = (Err RangeError, σ')
      ∧ instructionArrays σ' = instructionArrays σ
      ∧ signerArrays σ' = signerArrays σ.
Proof.
  intros Hi Hs account run. subst run.
  destruct (decide (ns64 accountRentExempt ∧ ns64 (AccountLayout_span E)))
    as [[Ha Hspan] | Hn].
  - eexists. split; [by apply (createTokenAccount_run E σ _ _ il sl) |]. cbn.
    split; [apply lookup_insert_eq |]. split; [apply lookup_insert_eq |].
    split; intros r Hr; by apply lookup_insert_ne.
  - eexists. split; [by apply (createTokenAccount_throws E σ _ _ il) |]. done.
Qed.
End AccountBuilders.

(** ** Account resolution *)

Section AccountResolutionMore.
Variable E : Externals.
Implicit Types (σ : Store) (il cl : list TransactionInstruction) (sl : list Account).

Lemma find_filter_nil {A} (P : A → bool) (l : list A) :
  List.filter P l = [] ↔ List.find P l = None.
Proof.
  induction l as [| a l IH]; [done |]. simpl. destruct (P a); [done | exact IH].
Qed.

Lemma bind_ret_unit {A} (m : M A) (σ : Store) :
  (a ← m; mret ();; mret a) σ = m σ.
Proof. m_unfold. by destruct (m σ) as [[a | e] σ']. Qed.

Lemma findOrCreateAccountByMint_find_none σ (payer owner mint : PublicKey)
    (instructions cleanupInstructions signers : nat) (accountRentExempt : Z)
    (excluded : option (gset string)) :
  toBase58 E mint ≠ toBase58 E (WRAPPED_SOL_MINT E) →
  List.find (account_matches E (toBase58 E mint) owner excluded)
    (map (cache_get (cache σ)) (byParser_TokenAccountParser (cache σ))) = None →
  findOrCreateAccountByMint E payer owner instructions cleanupInstructions
    accountRentExempt mint signers excluded σ
  = createTokenAccount E instructions payer accountRentExempt mint owner signers σ.
Proof.
  intros Hm Hc. unfold findOrCreateAccountByMint, read_cache.
  unfold mbind at 1. unfold M_bind at 1. cbn [mret M_ret].
  rewrite Hc. cbn [mjoin option_join]. rewrite (bool_decide_eq_false_2 _ Hm).
  apply bind_ret_unit.
Qed.

Lemma createTokenAccount_frame σ (payer mint owner : PublicKey)
    (instructions signers : nat) (accountRentExempt : Z) :
  let σ' := (createTokenAccount E instructions payer accountRentExempt mint owner
               signers σ).2 in
  (∀ r, r ≠ instructions → instructionArrays σ' !! r = instructionArrays σ !! r)
  ∧ (∀ r, r ≠ signers → signerArrays σ' !! r = signerArrays σ !! r).
Proof.
  unfold createTokenAccount, createUninitializedAccount, new_Account,
    Token.createInitAccountInstruction, push_call, push_instruction, push_signer.
  m_unfold. cbn.
  destruct (instructionArrays σ !! instructions) as [il |] eqn:Hi; cbn; [| done].
  destruct (SystemProgram.createAccount _ _ _ _ _) as [i | e]; cbn; [| done].
  destruct (signerArrays σ !! signers) as [sl |] eqn:Hs; cbn.
  - rewrite lookup_insert_eq. cbn.
    split; intros r Hr; by rewrite ?lookup_insert_ne by done.
  - split; intros r Hr; by rewrite ?lookup_insert_ne by done.
Qed.


(** X11: for a mint other than the wrapped-native mint,
    [findOrCreateAccountByMint] writes to no instruction array but the
    instruction list and to no signer array but the signer list, whatever
    the cache holds and whether it returns or throws: a cleanup list that
    is a different array is left as it was. *)
Theorem findOrCreateAccountByMint_cleanup_untouched σ (payer owner mint : PublicKey)
    (instructions cleanupInstructions signers : nat) (accountRentExempt : Z)
    (excluded : option (gset string)) :
  toBase58 E mint ≠ toBase58 E (WRAPPED_SOL_MINT E) →
  let σ' := (findOrCreateAccountByMint E payer owner instructions cleanupInstructions
               accountRentExempt mint signers excluded σ).2 in
  (∀ r, r ≠ instructions → instructionArrays σ' !! r = instructionArrays σ !! r)
  ∧ (∀ r, r ≠ signers → signerArrays σ' !! r = signerArrays σ !! r).
Proof.
  intros Hm.
  destruct (List.find (account_matches E (toBase58 E mint) owner excluded)
              (map (cache_get (cache σ)) (byParser_TokenAccountParser (cache σ))))
    as [[acc |] |] eqn:Hc.
  - unfold findOrCreateAccountByMint, read_cache. m_unfold. rewrite Hc.
    cbn [mjoin option_join]. by rewrite (bool_decide_eq_false_2 _ Hm).
  - apply List.find_some in Hc as [_ Hp]. done.
  - rewrite findOrCreateAccountByMint_find_none by done.
    apply createTokenAccount_frame.
Qed.

(** X8: an account that [findOrCreateAccountByMint] returns for a mint
    other than the wrapped-native mint is either one the cache lists, with
    the base58 mint and owner asked for and a key outside the excluded
    set, returned with the store untouched, or the key of the key pair
    generated by this call, and then no cached account was acceptable. *)
Theorem findOrCreateAccountByMint_sound σ σ' (payer owner mint k : PublicKey)
    (instructions cleanupInstructions signers : nat) (accountRentExempt : Z)
    (excluded : option (gset string)) :
  toBase58 E mint ≠ toBase58 E (WRAPPED_SOL_MINT E) →
  findOrCreateAccountByMint E payer owner instructions cleanupInstructions
    accountRentExempt mint signers excluded σ = (Ok k, σ') →
  (∃ id acc,
     id ∈ byParser_TokenAccountParser (cache σ)
     ∧ cache_get (cache σ) id = Some acc
     ∧ k = TokenAccount.pubkey acc
     ∧ σ' = σ
     ∧ toBase58 E (AccountInfo.mint (TokenAccount.info acc)) = toBase58 E mint
     ∧ toBase58 E (AccountInfo.owner (TokenAccount.info acc)) = toBase58 E owner
     ∧ ∀ s, excluded = Some s → toBase58 E (TokenAccount.pubkey acc) ∉ s)
  ∨ (cache_matches E σ mint owner excluded = []
     ∧ k = publicKey (generateKeypair E (generated σ))).
Proof.
  intros Hm Hrun.
  destruct (cache_matches E σ mint owner excluded) as [| x rest] eqn:Hc.
  - right. split; [done |]. unfold cache_matches in Hc.
    rewrite findOrCreateAccountByMint_find_none in Hrun
      by (done || by apply find_filter_nil).
    unfold createTokenAccount, createUninitializedAccount, new_Account in Hrun.
    revert Hrun. m_unfold.
    destruct (push_call _ _ _) as [[[] | e] σ1]; [| done].
    destruct (push_signer _ _ _) as [[[] | e] σ2]; [| done].
    destruct (push_call _ _ _) as [[[] | e] σ3]; [| done].
    by intros [= <- _].
  - left. unfold cache_matches in Hc. apply find_filter in Hc.
    pose proof (List.find_some _ _ Hc) as [Hin Hp].
    unfold findOrCreateAccountByMint, read_cache in Hrun. revert Hrun. m_unfold.
    rewrite Hc. destruct x as [acc |]; [| done].
    cbn [mjoin option_join]. rewrite (bool_decide_eq_false_2 _ Hm). cbn [negb].
    intros [= <- <-].
    apply List.in_map_iff in Hin as (id & Hget & Hid).
    exists id, acc. split; [by apply list_elem_of_In |]. split; [done |].
    do 2 (split; [done |]).
    unfold account_matches in Hp. apply andb_prop in Hp as [Hp Hex].
    apply andb_prop in Hp as [Hmint Howner].
    apply bool_decide_eq_true in Hmint, Howner. do 2 (split; [done |]).
    intros s ->. apply negb_true_iff, bool_decide_eq_false in Hex. done.
Qed.

(** X9: an empty exclusion set is the same as no exclusion set. *)
Theorem findOrCreateAccountByMint_excluded_empty σ (payer owner mint : PublicKey)
    (instructions cleanupInstructions signers : nat) (accountRentExempt : Z) :
  findOrCreateAccountByMint E payer owner instructions cleanupInstructions
    accountRentExempt mint signers (Some ∅) σ
  = findOrCreateAccountByMint E payer owner instructions cleanupInstructions
      accountRentExempt mint signers None σ.
Proof.
  unfold findOrCreateAccountByMint, read_cache. m_unfold.
  assert (∀ l, List.find (account_matches E (toBase58 E mint) owner (Some ∅)) l
               = List.find (account_matches E (toBase58 E mint) owner None) l) as ->;
    [| done].
  intros l. induction l as [| [acc |] l IH]; [done | | exact IH].
  simpl. rewrite (bool_decide_eq_false_2 (_ ∈ ∅)) by set_solver.
  cbn [negb]. by rewrite IH.
Qed.

(** X10: on a native account, [ensureSplAccount] does what
    [findOrCreateAccountByMint] does for the wrapped-native mint with the
    payer as owner: the same instructions, cleanup instruction, signer and
    returned key, on every store and for every exclusion set. *)
Theorem ensureSplAccount_native_is_findOrCreate σ
    (instructions cleanupInstructions signers : nat) (toCheck : TokenAccount.t)
    (payer : PublicKey) (amount : Z) (excluded : option (gset string)) :
  AccountInfo.isNative (TokenAccount.info toCheck) = true →
  ensureSplAccount E instructions cleanupInstructions toCheck payer amount signers σ
  = findOrCreateAccountByMint E payer payer instructions cleanupInstructions amount
      (WRAPPED_SOL_MINT E) signers excluded σ.
Proof.
  intros Hn. unfold ensureSplAccount, findOrCreateAccountByMint, read_cache.
  rewrite Hn. cbn [negb].
  unfold mbind at 4. unfold M_bind at 4. cbn [mret M_ret].
  rewrite bool_decide_eq_true_2 by done. cbn [negb].
  assert (∀ X : M PublicKey, (match mjoin (List.find
            (account_matches E (toBase58 E (WRAPPED_SOL_MINT E)) payer excluded)
            (map (cache_get (cache σ)) (byParser_TokenAccountParser (cache σ))))
          with Some _ => X | None => X end) = X) as -> by (intros; by destruct (mjoin _)).
  unfold createTokenAccount. m_unfold.
  destruct (createUninitializedAccount _ _ _ _ _ _) as [[a | e] σ1]; [| done].
  destruct (push_call _ _ σ1) as [[[] | e] σ2]; [| done].
  by destruct (push_call _ _ σ2) as [[[] | e] σ3].
Qed.
End AccountResolutionMore.

(** ** The metadata builders together *)

Section MetadataBuilders.
Variable E : Externals.
Implicit Types (σ : Store) (il : list TransactionInstruction).

(** X12: [updateMetadata] addresses the accounts [createMetadata] set up.
    Called one after the other for the same symbol, name and mint (the uri
    may differ), they append two instructions for the metadata program in
    call order; the metadata account, second key of the first, is the
    first key of the second, and the metadata-owner account, first key of
    the first, is the third key of the second.  Neither touches the signer
    list. *)
Theorem createMetadata_then_updateMetadata σ (symbol name uri uri' : string)
    (mintKey mintAuthorityKey payer updateAuthority : PublicKey)
    (instructions signers : nat) il
    (metadataAccount metadataOwnerAccount : PublicKey) (bump1 bump2 : Z) :
  instructionArrays σ !! instructions = Some il →
  findProgramAddress E (metadata_seeds E mintKey) (programIds_metadata E)
    = Ok (metadataAccount, bump1) →
  findProgramAddress E (metadata_owner_seeds E name symbol) (programIds_metadata E)
    = Ok (metadataOwnerAccount, bump2) →
  ∃ (data data' : list byte),
    (createMetadata E symbol name uri mintKey mintAuthorityKey instructions
       payer updateAuthority signers;;
     updateMetadata E symbol name uri' mintKey updateAuthority instructions signers) σ
    = (Ok (),
       mkStore
         (<[instructions :=
              il ++ [ new_TransactionInstruction
                        [ {| pubkey := metadataOwnerAccount;
                             isSigner := false; isWritable := true |};
                          {| pubkey := metadataAccount;
                             isSigner := false; isWritable := true |};
                          {| pubkey := mintKey; isSigner := false; isWritable := false |};
                          {| pubkey := mintAuthorityKey;
                             isSigner := true; isWritable := false |};
                          {| pubkey := payer; isSigner := true; isWritable := false |};
                          {| pubkey := updateAuthority;
                             isSigner := true; isWritable := false |};
                          {| pubkey := SystemProgram_programId E;
                             isSigner := false; isWritable := false |};
                          {| pubkey := SYSVAR_RENT_PUBKEY E;
                             isSigner := false; isWritable := false |} ]
                        (programIds_metadata E) data;
                      new_TransactionInstruction
                        [ {| pubkey := metadataAccount;
                             isSigner := false; isWritable := true |};
                          {| pubkey := updateAuthority;
                             isSigner := true; isWritable := false |};
                          {| pubkey := metadataOwnerAccount;
                             isSigner := false; isWritable := false |} ]
                        (programIds_metadata E) data' ]]>
            (instructionArrays σ))
         (signerArrays σ) (generated σ) (cache σ)).
Proof.
  intros Hi H1 H2. unfold metadata_seeds in H1. unfold metadata_owner_seeds in H2.
  do 2 eexists. unfold createMetadata, updateMetadata. m_unfold.
  rewrite H1, H2, serialize_CreateMetadataArgs, serialize_UpdateMetadataArgs.
  rewrite (push_instruction_run σ _ il) by done.
  erewrite push_instruction_run by (cbn; apply lookup_insert_eq).
  cbn. by rewrite insert_insert_eq, <- app_assoc.
Qed.
End MetadataBuilders.

(** ** More on the codec and the Metadata class *)

Lemma readBuffer_more (n : nat) (buf extra b rest : list byte) :
  readBuffer n buf = Ok (b, rest) → readBuffer n (buf ++ extra) = Ok (b, rest ++ extra).
Proof.
  unfold readBuffer. destruct (decide (n ≤ length buf)%nat) as [Hn |]; [| done].
  intros [= <- <-]. rewrite decide_True by (rewrite length_app; lia).
  by rewrite take_app_le, drop_app_le by done.
Qed.

Lemma readU8_more (buf extra rest : list byte) (z : Z) :
  readU8 buf = Ok (z, rest) → readU8 (buf ++ extra) = Ok (z, rest ++ extra).
Proof. destruct buf; [done |]. by intros [= <- <-]. Qed.

Lemma readU32_more (buf extra rest : list byte) (z : Z) :
  readU32 buf = Ok (z, rest) → readU32 (buf ++ extra) = Ok (z, rest ++ extra).
Proof.
  unfold readU32. reader_unfold.
  do 4 (destruct buf as [| ? buf]; [done |]). by intros [= <- <-].
Qed.

Lemma deserializeField_more (fieldType : FieldType) (buf extra rest : list byte)
    (v : JsValue) :
  deserializeField fieldType buf = Ok (v, rest) →
  deserializeField fieldType (buf ++ extra) = Ok (v, rest ++ extra).
Proof.
  revert buf v rest. induction fieldType as [| | n | type IH]; intros buf v rest;
    cbn [deserializeField]; unfold fmap, Reader_fmap.
  - destruct (readU8 buf) as [[z b] |] eqn:H; [| done].
    intros [= <- <-]. by rewrite (readU8_more _ _ _ _ H).
  - unfold readString. reader_unfold.
    destruct (readU32 buf) as [[z b] |] eqn:H; [| done].
    rewrite (readU32_more _ _ _ _ H).
    destruct (readBuffer _ b) as [[s b'] |] eqn:H'; [| done].
    intros [= <- <-]. by rewrite (readBuffer_more _ _ _ _ _ H').
  - destruct (readBuffer n buf) as [[s b'] |] eqn:H'; [| done].
    intros [= <- <-]. by rewrite (readBuffer_more _ _ _ _ _ H').
  - reader_unfold. destruct (readU8 buf) as [[z b] |] eqn:H; [| done].
    rewrite (readU8_more _ _ _ _ H).
    destruct (decide (z = 0)); [by intros [= <- <-] | apply IH].
Qed.

Lemma deserializeFields_more (fs : list (string * FieldType))
    (result result' : gmap string JsValue) (buf extra rest : list byte) :
  deserializeFields fs result buf = Ok (result', rest) →
  deserializeFields fs result (buf ++ extra) = Ok (result', rest ++ extra).
Proof.
  revert result buf. induction fs as [| [k ty] fs IH]; intros result buf.
  - by intros [= <- <-].
  - cbn [deserializeFields]. unfold mbind, Reader_bind.
    destruct (deserializeField ty buf) as [[v b] |] eqn:H; [| done].
    rewrite (deserializeField_more _ _ _ _ _ H). apply IH.
Qed.

(** X13: [decodeMetadata] ignores what follows the record: a buffer that
    decodes still decodes, to the same record, with any bytes appended. *)
Theorem decodeMetadata_trailing_bytes (buffer extra : list byte) (m : Metadata.t) :
  decodeMetadata buffer = Ok m → decodeMetadata (buffer ++ extra) = Ok m.
Proof.
  unfold decodeMetadata, deserializeBorsh. rewrite schema_get_Metadata.
  cbn [kind fields]. rewrite decide_True by done.
  unfold mbind at 2 4. unfold Result_bind at 2 4.
  destruct (deserializeFields Metadata_fields ∅ buffer) as [[result rest] |] eqn:Hd;
    [| done].
  by rewrite (deserializeFields_more _ _ _ _ _ _ Hd).
Qed.

Lemma deserializeField_min_size (fieldType : FieldType) (buf rest : list byte)
    (v : JsValue) :
  deserializeField fieldType buf = Ok (v, rest) →
  (min_size fieldType + length rest ≤ length buf)%nat.
Proof.
  revert buf v rest. induction fieldType as [| | n | type IH]; intros buf v rest;
    cbn [deserializeField min_size]; unfold fmap, Reader_fmap.
  - destruct buf; [done |]. intros [= <- <-]. simpl. lia.
  - unfold readString, readU32, readBuffer. reader_unfold.
    do 4 (destruct buf as [| ? buf]; [done |]). cbn [readU8].
    destruct (decide _); [| done]. intros [= <- <-]. simpl. rewrite length_drop. lia.
  - unfold readBuffer. destruct (decide _); [| done]. intros [= <- <-].
    rewrite length_drop. lia.
  - reader_unfold. destruct buf as [| a buf]; [done |]. cbn [readU8].
    destruct (decide _); [intros [= <- <-]; simpl; lia |].
    intros H. apply IH in H. simpl. lia.
Qed.

Lemma deserializeFields_min_sizes (fs : list (string * FieldType))
    (result result' : gmap string JsValue) (buf rest : list byte) :
  deserializeFields fs result buf = Ok (result', rest) →
  (min_sizes fs + length rest ≤ length buf)%nat.
Proof.
  revert result buf. induction fs as [| [k ty] fs IH]; intros result buf.
  - intros [= <- <-]. simpl. lia.
  - cbn [deserializeFields]. unfold mbind at 1. unfold Reader_bind at 1.
    destruct (deserializeField ty buf) as [[v b] |] eqn:H; [| done].
    intros H'. apply IH in H'. apply deserializeField_min_size in H.
    unfold min_sizes in *. cbn [foldr snd]. lia.
Qed.

Lemma deserializeField_error (fieldType : FieldType) (buf : list byte) (e : Error) :
  deserializeField fieldType buf = Err e → e = MalformedInput.
Proof.
  revert buf. induction fieldType as [| | n | type IH]; intros buf;
    cbn [deserializeField]; unfold fmap, Reader_fmap.
  - destruct buf; [by intros [= <-] | done].
  - unfold readString, readU32, readBuffer. reader_unfold.
    do 4 (destruct buf as [| ? buf]; [by intros [= <-] |]). cbn [readU8].
    destruct (decide _); [done | by intros [= <-]].
  - unfold readBuffer. destruct (decide _); [done | by intros [= <-]].
  - reader_unfold. destruct buf as [| a buf]; [by intros [= <-] |]. cbn [readU8].
    destruct (decide _); [done | apply IH].
Qed.

Lemma deserializeFields_error (fs : list (string * FieldType))
    (result : gmap string JsValue) (buf : list byte) (e : Error) :
  deserializeFields fs result buf = Err e → e = MalformedInput.
Proof.
  revert result buf. induction fs as [| [k ty] fs IH]; intros result buf; [done |].
  cbn [deserializeFields]. unfold mbind at 1. unfold Reader_bind at 1.
  destruct (deserializeField ty buf) as [[v b] |] eqn:H.
  - apply IH.
  - intros [= <-]. by apply deserializeField_error in H.
Qed.

Lemma new_PublicKey_total (b : list byte) :
  (length b ≤ 32)%nat →
  ∃ k, new_PublicKey b = Ok k ∧ length (toBuffer k) = 32%nat.
Proof.
  intros Hb. unfold new_PublicKey. destruct (strip_zeros_pad b) as [_ Hl].
  rewrite decide_True by lia. eexists. split; [done |].
  cbn. rewrite length_app, length_replicate. lia.
Qed.

Lemma Metadata_new_ext (r r' : gmap string JsValue) :
  (∀ k, k ∈ ["updateAuthority"; "mint"; "name"; "symbol"; "uri"] → r !! k = r' !! k) →
  Metadata.new r = Metadata.new r'.
Proof.
  intros H. unfold Metadata.new, prop.
  rewrite !(H "updateAuthority"), !(H "mint"), !(H "name"), !(H "symbol"), !(H "uri");
    [done | repeat constructor ..].
Qed.

Lemma deserializeFields_from_empty (fs : list (string * FieldType))
    (result : gmap string JsValue) (buf : list byte) :
  deserializeFields fs result buf
  = match deserializeFields fs ∅ buf with
    | Ok (decoded, rest) => Ok (decoded ∪ result, rest)
    | Err e => Err e
    end.
Proof.
  revert result buf. induction fs as [| [k ty] fs IH]; intros result buf.
  - cbn. by rewrite (left_id_L ∅ (∪)).
  - cbn [deserializeFields]. unfold mbind, Reader_bind.
    destruct (deserializeField ty buf) as [[v b] |]; [| done].
    rewrite (IH (<[k := v]> result)), (IH (<[k := v]> ∅)).
    destruct (deserializeFields fs ∅ b) as [[decoded rest] |]; [| done].
    do 2 f_equal. rewrite <- (assoc_L (∪)). f_equal.
    by rewrite insert_union_singleton_l, insert_empty.
Qed.

Lemma decodeMetadata_fields (buf rest : list byte) (r : gmap string JsValue) :
  deserializeFields Metadata_fields ∅ buf = Ok (r, rest) →
  ∃ m n s u,
    r !! "updateAuthority" = None ∧ r !! "mint" = Some (JBuffer m)
    ∧ length m = 32%nat ∧ r !! "name" = Some (JString n)
    ∧ r !! "symbol" = Some (JString s) ∧ r !! "uri" = Some (JString u).
Proof.
  unfold Metadata_fields. cbn [deserializeFields]. unfold mbind, Reader_bind.
  destruct (deserializeField (OptionT U8) buf) as [[v0 b0] |]; [| done].
  cbn [deserializeField]. unfold fmap, Reader_fmap.
  destruct (readBuffer 32 b0) as [[m b1] |] eqn:Hm; [| done].
  destruct (readString b1) as [[n b2] |]; [| done].
  destruct (readString b2) as [[s b3] |]; [| done].
  destruct (readString b3) as [[u b4] |]; [| done].
  intros [= <- <-]. exists m, n, s, u.
  unfold readBuffer in Hm. destruct (decide _) as [Hle |]; [| done].
  injection Hm as <- <-. rewrite length_take.
  repeat split; try lia;
    repeat (rewrite lookup_insert_eq || rewrite lookup_insert_ne by done); done.
Qed.

Lemma decodeMetadata_cases (buffer : list byte) :
  decodeMetadata buffer = Err MalformedInput
  ∨ ∃ m, decodeMetadata buffer = Ok m ∧ Metadata_valid m ∧ Metadata.extended m = None
         ∧ (min_sizes Metadata_fields ≤ length buffer)%nat.
Proof.
  unfold decodeMetadata, deserializeBorsh. rewrite schema_get_Metadata.
  cbn [kind fields]. rewrite decide_True by done.
  destruct (deserializeFields Metadata_fields ∅ buffer) as [[r rest] | e] eqn:Hd.
  - right. pose proof (deserializeFields_min_sizes _ _ _ _ _ Hd) as Hsize.
    apply decodeMetadata_fields in Hd
      as (m & n & s & u & Hua & Hm & Hlen & Hn & Hs & Hu).
    destruct (new_PublicKey_total m ltac:(lia)) as (k & Hk & Hk32).
    cbn [construct]. unfold Metadata.new, prop. result_unfold.
    rewrite Hua, Hm, Hn, Hs, Hu. cbn [default from_option id as_key as_string].
    rewrite Hk. eexists. split; [reflexivity |]. repeat split; [done | lia].
  - left. apply deserializeFields_error in Hd as ->. reflexivity.
Qed.

(** X14: [decodeMetadata] fails in one way only.  Every buffer either is
    rejected with [MalformedInput], or decodes to a record whose mint is a
    32-byte key and whose [extended] is absent: the Metadata class is in
    the schema, and the fields the schema entry declares are those the
    constructor reads. *)
Theorem decodeMetadata_outcomes (buffer : list byte) :
  decodeMetadata buffer = Err MalformedInput
  ∨ ∃ m, decodeMetadata buffer = Ok m ∧ Metadata_valid m ∧ Metadata.extended m = None.
Proof.
  destruct (decodeMetadata_cases buffer) as [H | (m & H & Hv & He & _)]; [by left |].
  right. eauto.
Qed.

(** X15: a buffer of fewer than 45 bytes, the empty buffer among them,
    never decodes as Metadata: the presence byte, the 32-byte mint and the
    three length prefixes alone take 45 bytes. *)
Theorem decodeMetadata_too_short (buffer : list byte) :
  (length buffer < 45)%nat → decodeMetadata buffer = Err MalformedInput.
Proof.
  intros Hlen. destruct (decodeMetadata_cases buffer) as [H | (m & _ & _ & _ & Hsize)];
    [done |].
  change (min_sizes Metadata_fields) with 45%nat in Hsize. lia.
Qed.

(** X16: [decodeMetadata] drops the leading option.  A buffer that starts
    with a presence byte other than 0 and a value byte decodes exactly as
    the buffer with that pair replaced by the single byte 0: the Metadata
    constructor does not read [allow_duplicates]. *)
Theorem decodeMetadata_drops_allow_duplicates (tag value : byte) (tail : list byte) :
  tag ≠ x00 →
  decodeMetadata (tag :: value :: tail) = decodeMetadata (x00 :: tail).
Proof.
  intros Htag. unfold decodeMetadata, deserializeBorsh. rewrite schema_get_Metadata.
  cbn [kind fields]. rewrite decide_True by done. f_equal.
  unfold Metadata_fields. rewrite !deserializeFields_cons.
  destruct (deserializeField_option_u8 tag value tail) as [-> ->]; [| done].
  set (rest := [("mint", FixedArray 32); ("name", StringT); ("symbol", StringT);
                ("uri", StringT)]).
  rewrite (deserializeFields_from_empty rest (<[_ := JNumber _]> ∅)).
  rewrite (deserializeFields_from_empty rest (<[_ := JUndefined]> ∅)).
  destruct (deserializeFields rest ∅ tail) as [[decoded b] |]; [| done].
  unfold mbind, Result_bind. cbn [construct]. f_equal. apply Metadata_new_ext.
  intros k Hk. rewrite !lookup_union. f_equal.
  assert ("allow_duplicates" ≠ k) as Hne.
  { intros <-. repeat (apply elem_of_cons in Hk as [Hk | Hk]; [done |]).
    by apply elem_of_nil in Hk. }
  by rewrite !lookup_insert_ne.
Qed.

(** X17: the bytes that the Metadata schema entry lays out for a valid
    record within the length bounds have 45 bytes more than its name,
    symbol and uri together when [allow_duplicates] is absent and 46 when
    it is present, so at most 288 bytes, and fit the [MAX_METADATA_LEN]
    bytes that callers allocate. *)
Theorem Metadata_encoding_fits (allow_duplicates : option byte) (R : Metadata.t) :
  Metadata_valid R → Metadata_within_bounds R →
  let b := Metadata_bytes allow_duplicates R in
  length b = ((match allow_duplicates with Some _ => 46 | None => 45 end)
              + length (Buffer_from (Metadata.name R))
              + length (Buffer_from (Metadata.symbol R))
              + length (Buffer_from (Metadata.uri R)))%nat
  ∧ (Z.of_nat (length b) ≤ 288)%Z
  ∧ (Z.of_nat (length b) ≤ MAX_METADATA_LEN)%Z.
Proof.
  intros Hm (Hn & Hs & Hu) b. subst b.
  unfold MAX_METADATA_LEN, MAX_NAME_LENGTH, MAX_SYMBOL_LENGTH, MAX_URI_LENGTH in *.
  unfold Metadata_valid in Hm. unfold Metadata_bytes, writeString.
  rewrite !length_app, !writeU32_length, Hm.
  destruct allow_duplicates; cbn [length]; repeat split; lia.
Qed.

Lemma writeString_app_inj (s s' : string) (rest rest' : list byte) :
  Z.of_nat (length (Buffer_from s)) < 2 ^ 32 →
  Z.of_nat (length (Buffer_from s')) < 2 ^ 32 →
  writeString s ++ rest = writeString s' ++ rest' →
  s = s' ∧ rest = rest'.
Proof.
  intros Hs Hs' Heq.
  pose proof (readString_writeString s rest Hs) as Hread.
  rewrite Heq, (readString_writeString s' rest' Hs') in Hread.
  by injection Hread as -> ->.
Qed.

(** X18: the payload of [createMetadata] determines the name, the symbol
    and the uri it was built from, and the payload of [updateMetadata]
    its uri, among strings of fewer than 2^32 bytes: the length prefixes
    keep neighbouring strings apart. *)
Theorem metadata_payloads_unambiguous (name symbol uri name' symbol' uri' : string) :
  Z.of_nat (length (Buffer_from name)) < 2 ^ 32 →
  Z.of_nat (length (Buffer_from symbol)) < 2 ^ 32 →
  Z.of_nat (length (Buffer_from uri)) < 2 ^ 32 →
  Z.of_nat (length (Buffer_from name')) < 2 ^ 32 →
  Z.of_nat (length (Buffer_from symbol')) < 2 ^ 32 →
  Z.of_nat (length (Buffer_from uri')) < 2 ^ 32 →
  (serialize SCHEMA (OfCreateMetadataArgs (CreateMetadataArgs.new name symbol uri))
   = serialize SCHEMA (OfCreateMetadataArgs (CreateMetadataArgs.new name' symbol' uri'))
   → name = name' ∧ symbol = symbol' ∧ uri = uri')
  ∧ (serialize SCHEMA (OfUpdateMetadataArgs (UpdateMetadataArgs.new uri))
     = serialize SCHEMA (OfUpdateMetadataArgs (UpdateMetadataArgs.new uri'))
     → uri = uri').
Proof.
  intros Hn Hs Hu Hn' Hs' Hu'. split.
  - rewrite !serialize_CreateMetadataArgs. intros Heq.
    apply (f_equal (λ r, match r with Ok l => drop 2 l | Err _ => [] end)) in Heq.
    cbn [drop] in Heq.
    apply writeString_app_inj in Heq as [-> Heq]; [| done ..].
    apply writeString_app_inj in Heq as [-> Heq]; [| done ..].
    rewrite <- (app_nil_r (writeString uri)), <- (app_nil_r (writeString uri')) in Heq.
    by apply writeString_app_inj in Heq as [-> _].
  - rewrite !serialize_UpdateMetadataArgs. intros Heq.
    apply (f_equal (λ r, match r with Ok l => drop 1 l | Err _ => [] end)) in Heq.
    cbn [drop] in Heq. by apply writeString_app_inj in Heq as [-> _].
Qed.

(** ** Concrete runs of the further properties *)

Lemma createTempMemoryAccount_run_witness :
  (∃ σ', createTempMemoryAccount sample_externals 0 sample_payer 0 sample_owner None
           (sample_store (sample_key 40)) = (Ok (sample_key 100), σ')
         ∧ instructionArrays σ' !! 0%nat
           = Some [SystemProgram_createAccount sample_payer (sample_key 100) 0 65548
                     sample_owner])
  ∧ ∃ σ', createTempMemoryAccount sample_externals 0 sample_payer 0 sample_owner
            (Some (2 ^ 63)) (sample_store (sample_key 40)) = (Err RangeError, σ')
          ∧ instructionArrays σ' !! 0%nat = Some [].
Proof.
  split.
  - eexists. split.
    + apply (createTempMemoryAccount_run sample_externals (sample_store (sample_key 40))
               0 0 [] [] sample_payer sample_owner None eq_refl eq_refl).
    + by vm_compute.
  - eexists. split.
    + apply (createTempMemoryAccount_run sample_externals (sample_store (sample_key 40))
               0 0 [] [] sample_payer sample_owner (Some (2 ^ 63)) eq_refl eq_refl).
    + by vm_compute.
Defined.

Lemma createMint_run_witness :
  (∃ σ', createMint sample_externals 0 sample_payer 9 6 sample_owner (sample_key 22) 0
           (sample_store (sample_key 40)) = (Ok (sample_key 100), σ')
         ∧ instructionArrays σ' !! 0%nat
           = Some [SystemProgram_createAccount sample_payer (sample_key 100) 9 82
                     (sample_key 10);
                   Token_createInitMintInstruction (sample_key 10) (sample_key 100) 6
                     sample_owner (sample_key 22)])
  ∧ ∃ σ', createMint sample_externals 0 sample_payer 9 256 sample_owner (sample_key 22)
            0 (sample_store (sample_key 40)) = (Err RangeError, σ')
          ∧ instructionArrays σ' !! 0%nat
            = Some [SystemProgram_createAccount sample_payer (sample_key 100) 9 82
                      (sample_key 10)]
          ∧ signerArrays σ' !! 0%nat
            = Some [ {| publicKey := sample_key 100; secretKey := [] |} ].
Proof.
  assert (ns64 9) as Hrent by range_solve.
  assert (ns64 (MintLayout_span sample_externals)) as Hspan by range_solve.
  split.
  - eexists. split.
    + apply (createMint_run sample_externals (sample_store (sample_key 40)) 0 0 [] []
               sample_payer sample_owner (sample_key 22) 9 6 eq_refl eq_refl Hrent
               Hspan).
    + by vm_compute.
  - eexists. split.
    + apply (createMint_run sample_externals (sample_store (sample_key 40)) 0 0 [] []
               sample_payer sample_owner (sample_key 22) 9 256 eq_refl eq_refl Hrent
               Hspan).
    + split; by vm_compute.
Defined.

Lemma createAssociatedTokenAccountInstruction_run_witness :
  ∃ keys σ',
    createAssociatedTokenAccountInstruction sample_externals 0 (sample_key 50)
      sample_payer sample_owner (sample_key 40) (sample_store (sample_key 40))
    = (Ok (), σ')
    ∧ instructionArrays σ' !! 0%nat
      = Some [new_TransactionInstruction keys (sample_key 12) []]
    ∧ pubkey <$> keys
      = [ sample_payer; sample_key 50; sample_owner; sample_key 40;
          sample_key 0; sample_key 10; sample_key 13 ].
Proof.
  destruct (createAssociatedTokenAccountInstruction_run sample_externals
              (sample_store (sample_key 40)) 0 [] (sample_key 50) sample_payer
              sample_owner (sample_key 40) eq_refl) as (Hrun & _ & _).
  do 2 eexists. split; [exact Hrun |]. split.
  - cbn [instructionArrays]. apply lookup_insert_eq.
  - reflexivity.
Defined.

Lemma createTokenAccount_binds_fresh_account_witness :
  (∃ σ', createTokenAccount sample_externals 0 sample_payer 7 (sample_key 40)
           sample_owner 0 (sample_store (sample_key 40)) = (Ok (sample_key 100), σ')
         ∧ signerArrays σ' !! 0%nat
           = Some [ {| publicKey := sample_key 100; secretKey := [] |} ]
         ∧ instructionArrays σ' !! 1%nat = Some [])
  ∧ ∃ σ', createTokenAccount sample_externals 0 sample_payer (2 ^ 63) (sample_key 40)
            sample_owner 0 (sample_store (sample_key 40)) = (Err RangeError, σ')
          ∧ instructionArrays σ' !! 0%nat = Some [].
Proof.
  split.
  - pose proof (createTokenAccount_binds_fresh_account sample_externals
                  (sample_store (sample_key 40)) 0 0 [] [] sample_payer (sample_key 40)
                  sample_owner 7 eq_refl eq_refl) as H.
    cbv zeta in H. rewrite decide_True in H by (split; range_solve).
    destruct H as (σ' & Hrun & _ & Hs & Hi & _).
    exists σ'. split; [exact Hrun |]. split; [exact Hs |].
    rewrite Hi by done. reflexivity.
  - pose proof (createTokenAccount_binds_fresh_account sample_externals
                  (sample_store (sample_key 40)) 0 0 [] [] sample_payer (sample_key 40)
                  sample_owner (2 ^ 63) eq_refl eq_refl) as H.
    cbv zeta in H. rewrite decide_False in H by (intros [Hr _]; unfold ns64 in Hr; lia).
    destruct H as (σ' & Hrun & Hi & _).
    exists σ'. split; [exact Hrun |]. rewrite Hi. reflexivity.
Defined.


Lemma findOrCreateAccountByMint_first_match_witness :
  findOrCreateAccountByMint sample_externals sample_payer sample_owner 0 1 7
    (sample_key 40) 0 None (sample_store2 (sample_key 40))
  = (Ok (sample_key 30), sample_store2 (sample_key 40)).
Proof.
  apply (findOrCreateAccountByMint_first_match sample_externals
           (sample_store2 (sample_key 40)) sample_payer sample_owner (sample_key 40)
           0 1 0 7 None (sample_account (sample_key 40) false)
           [Some (sample_account2 (sample_key 40))]); by vm_compute.
Defined.

Lemma findOrCreateAccountByMint_sound_witness :
  findOrCreateAccountByMint sample_externals sample_payer sample_owner 0 1 7
    (sample_key 40) 0 (Some sample_excluded) (sample_store2 (sample_key 40))
  = (Ok (sample_key 31), sample_store2 (sample_key 40))
  ∧ toBase58 sample_externals (sample_key 31) ∉ sample_excluded.
Proof.
  assert (findOrCreateAccountByMint sample_externals sample_payer sample_owner 0 1 7
            (sample_key 40) 0 (Some sample_excluded) (sample_store2 (sample_key 40))
          = (Ok (sample_key 31), sample_store2 (sample_key 40))) as Hrun
    by (by vm_compute).
  split; [exact Hrun |].
  destruct (findOrCreateAccountByMint_sound sample_externals
              (sample_store2 (sample_key 40)) (sample_store2 (sample_key 40))
              sample_payer sample_owner (sample_key 40) (sample_key 31) 0 1 0 7
              (Some sample_excluded) ltac:(by vm_compute) Hrun)
    as [(id & acc & _ & _ & Hk & _ & _ & _ & Hex) | [_ Hk]].
  - rewrite Hk. by apply Hex.
  - by vm_compute in Hk.
Defined.

Lemma ensureSplAccount_native_is_findOrCreate_witness :
  ensureSplAccount sample_externals 0 1 (sample_account (sample_key 11) true)
    sample_payer 7 0 (sample_store (sample_key 11))
  = findOrCreateAccountByMint sample_externals sample_payer sample_payer 0 1 7
      (sample_key 11) 0 None (sample_store (sample_key 11)).
Proof.
  apply (ensureSplAccount_native_is_findOrCreate sample_externals
           (sample_store (sample_key 11)) 0 1 0 (sample_account (sample_key 11) true)
           sample_payer 7 None).
  reflexivity.
Defined.

Lemma findOrCreateAccountByMint_cleanup_untouched_witness :
  instructionArrays
    (findOrCreateAccountByMint sample_externals sample_payer sample_owner 0 1 7
       (sample_key 41) 0 None (sample_store (sample_key 40))).2 !! 1%nat
  = Some [].
Proof.
  destruct (findOrCreateAccountByMint_cleanup_untouched sample_externals
              (sample_store (sample_key 40)) sample_payer sample_owner (sample_key 41)
              0 1 0 7 None ltac:(by vm_compute)) as [Hi _].
  rewrite Hi by done. reflexivity.
Defined.

Lemma createMetadata_then_updateMetadata_witness :
  ∃ i1 i2 σ',
    (createMetadata sample_externals "FOO" "Foo" "http://x" (sample_key 40)
       (sample_key 41) 0 sample_payer (sample_key 42) 0;;
     updateMetadata sample_externals "FOO" "Foo" "http://y" (sample_key 40)
       (sample_key 42) 0 0) (sample_store (sample_key 40))
    = (Ok (), σ')
    ∧ instructionArrays σ' !! 0%nat = Some [i1; i2].
Proof.
  destruct (createMetadata_then_updateMetadata sample_externals
              (sample_store (sample_key 40)) "FOO" "Foo" "http://x" "http://y"
              (sample_key 40) (sample_key 41) sample_payer (sample_key 42) 0 0 [] _ _
              255 255 eq_refl eq_refl eq_refl) as (data & data' & Hrun).
  do 3 eexists. split; [exact Hrun |]. cbn [instructionArrays]. apply lookup_insert_eq.
Defined.

Lemma decodeMetadata_trailing_bytes_witness :
  decodeMetadata (take 59 sample_Metadata_bytes ++ [xff; xff]) = Ok sample_Metadata.
Proof.
  apply (decodeMetadata_trailing_bytes (take 59 sample_Metadata_bytes) [xff; xff]).
  by vm_compute.
Defined.

Lemma decodeMetadata_too_short_witness :
  decodeMetadata [] = Err MalformedInput
  ∧ decodeMetadata (take 44 sample_Metadata_bytes) = Err MalformedInput.
Proof.
  split.
  - apply (decodeMetadata_too_short []). simpl. lia.
  - apply (decodeMetadata_too_short (take 44 sample_Metadata_bytes)). vm_compute. lia.
Defined.

Lemma decodeMetadata_drops_allow_duplicates_witness :
  decodeMetadata (x01 :: x07 :: drop 1 sample_Metadata_bytes) = Ok sample_Metadata.
Proof.
  rewrite (decodeMetadata_drops_allow_duplicates x01 x07 (drop 1 sample_Metadata_bytes))
    by done.
  by vm_compute.
Defined.

Lemma Metadata_encoding_fits_witness :
  length (Metadata_bytes None sample_Metadata) = 59%nat
  ∧ length (Metadata_bytes (Some x07) sample_Metadata) = 60%nat.
Proof.
  split.
  - destruct (Metadata_encoding_fits None sample_Metadata eq_refl
                sample_Metadata_within_bounds) as (Hlen & _).
    rewrite Hlen. reflexivity.
  - destruct (Metadata_encoding_fits (Some x07) sample_Metadata eq_refl
                sample_Metadata_within_bounds) as (Hlen & _).
    rewrite Hlen. reflexivity.
Defined.

Lemma metadata_payloads_unambiguous_witness :
  serialize SCHEMA (OfCreateMetadataArgs (CreateMetadataArgs.new "Foo" "" "x"))
  ≠ serialize SCHEMA (OfCreateMetadataArgs (CreateMetadataArgs.new "Fo" "o" "x")).
Proof.
  intros Heq.
  destruct (metadata_payloads_unambiguous "Foo" "" "x" "Fo" "o" "x") as [Hc _];
    [by vm_compute .. |].
  destruct (Hc Heq) as [Hn _]. discriminate Hn.
Defined.

(** ** The constructor and the schema table *)

(** X19: the Metadata constructor keeps what it is given.  From 32-byte
    buffers for the mint and, when there is one, the update authority, and
    any name, symbol and uri, it builds the record with exactly these
    members; no update authority gives none, and [extended] is left
    absent. *)
Theorem Metadata_new_keeps_arguments (updateAuthority : option (list byte))
    (mint : list byte) (name symbol uri : string) :
  length mint = 32%nat →
  (∀ b, updateAuthority = Some b → length b = 32%nat) →
  Metadata.new (Metadata_args updateAuthority mint name symbol uri)
  = Ok {| Metadata.updateAuthority := mkPublicKey <$> updateAuthority;
          Metadata.mint := mkPublicKey mint;
          Metadata.name := name; Metadata.symbol := symbol; Metadata.uri := uri;
          Metadata.extended := None |}.
Proof.
  intros Hm Hua. unfold Metadata.new, Metadata_args, prop.
  repeat (rewrite lookup_insert_eq || rewrite lookup_insert_ne by done).
  cbn [default from_option id as_string].
  assert (as_key (JBuffer mint) = Ok (mkPublicKey mint)) as ->
    by apply (new_PublicKey_toBuffer (mkPublicKey mint) Hm).
  destruct updateAuthority as [b |]; cbn [from_option fmap option_fmap option_map].
  - assert (as_key (JBuffer b) = Ok (mkPublicKey b)) as ->
      by apply (new_PublicKey_toBuffer (mkPublicKey b) (Hua b eq_refl)).
    reflexivity.
  - reflexivity.
Qed.

Lemma serializeField_error (fieldType : FieldType) (v : JsValue) (e : Error) :
  serializeField fieldType v = Err e → e = EncodeError.
Proof.
  revert v. induction fieldType as [| | n | type IH]; intros v; cbn [serializeField].
  - unfold writeU8. destruct v; try (by intros [= <-]);
      destruct (decide _); (done || by intros [= <-]).
  - destruct v; (done || by intros [= <-]).
  - destruct v; try (by intros [= <-]). destruct (decide _); (done || by intros [= <-]).
  - destruct v; [done | ..]; result_unfold;
      (destruct (serializeField type _) eqn:H; [done |]; intros [= <-]; by apply IH in H).
Qed.

Lemma serializeStruct_error (fs : list (string * FieldType)) (obj : Instance)
    (e : Error) :
  serializeStruct fs obj = Err e → e = EncodeError.
Proof.
  induction fs as [| [k ty] fs IH]; [done |]. cbn [serializeStruct]. result_unfold.
  destruct (serializeField ty _) eqn:H.
  - destruct (serializeStruct fs obj); [done |]. intros [= <-]. by apply IH.
  - intros [= <-]. by apply serializeField_error in H.
Qed.

Lemma as_string_error (v : JsValue) (e : Error) :
  as_string v = Err e → e = TypeError.
Proof. destruct v; (done || by intros [= <-]). Qed.

Lemma as_key_error (v : JsValue) (e : Error) :
  as_key v = Err e → e ≠ SchemaLookupError.
Proof.
  destruct v; try (by intros [= <-]). cbn [as_key]. unfold new_PublicKey.
  destruct (decide _); (done || by intros [= <-]).
Qed.

Lemma Result_bind_error {A B} (m : Result A) (f : A → Result B) (P : Error → Prop) :
  (∀ e, m = Err e → P e) → (∀ a e, f a = Err e → P e) →
  ∀ e, m ≫= f = Err e → P e.
Proof. intros Hm Hf e. destruct m as [a | e0]; [apply Hf | intros [= <-]; by apply Hm]. Qed.

Lemma Result_fmap_error {A B} (m : Result A) (f : A → B) (P : Error → Prop) :
  (∀ e, m = Err e → P e) → ∀ e, f <$> m = Err e → P e.
Proof. intros Hm e. destruct m as [a | e0]; [done | intros [= <-]; by apply Hm]. Qed.

Lemma construct_error (c : ClassType) (args : gmap string JsValue) (e : Error) :
  construct c args = Err e → e ≠ SchemaLookupError.
Proof.
  assert (∀ v e', as_string v = Err e' → e' ≠ SchemaLookupError) as Hstr
    by (intros v e' H; by apply as_string_error in H as ->).
  pose proof as_key_error as Hkey. revert e.
  destruct c; cbn [construct]; unfold Metadata.new, NameSymbolTuple.new.
  - repeat (apply Result_bind_error; [by eauto | intros ?]). done.
  - repeat (apply Result_bind_error; [by eauto | intros ?]). done.
  - apply Result_fmap_error. apply Result_bind_error.
    + destruct (prop args "updateAuthority"); [done | ..];
        apply Result_fmap_error; eauto.
    + intros ?. repeat (apply Result_bind_error; [by eauto | intros ?]). done.
  - apply Result_fmap_error.
    repeat (apply Result_bind_error; [by eauto | intros ?]). done.
Qed.

(** X20: the schema table covers the file's classes.  Each of the four
    classes has a struct entry, so neither encoding an instance nor
    decoding a buffer, for any class, fails on the schema lookup. *)
Theorem SCHEMA_covers_every_class :
  (∀ c, ∃ fs, schema_get SCHEMA c = Some {| kind := "struct"; fields := fs |})
  ∧ (∀ obj, serialize SCHEMA obj ≠ Err SchemaLookupError)
  ∧ (∀ c buffer, deserializeBorsh SCHEMA c buffer ≠ Err SchemaLookupError).
Proof.
  assert (∀ c, ∃ fs, schema_get SCHEMA c = Some {| kind := "struct"; fields := fs |})
    as Hget by (intros []; eexists; reflexivity).
  split; [exact Hget |]. split.
  - intros obj. unfold serialize. destruct (Hget (constructor obj)) as [fs ->].
    cbn [kind fields]. rewrite decide_True by done.
    intros H. by apply serializeStruct_error in H.
  - intros c buffer. unfold deserializeBorsh. destruct (Hget c) as [fs ->].
    cbn [kind fields]. rewrite decide_True by done. result_unfold.
    destruct (deserializeFields fs ∅ buffer) as [[r rest] | e] eqn:Hd.
    + intros H. by apply construct_error in H.
    + apply deserializeFields_error in Hd as ->. done.
Qed.

Lemma Metadata_new_keeps_arguments_witness :
  Metadata.new (Metadata_args (Some (toBuffer (sample_key 1))) (toBuffer (sample_key 2))
                  "Foo" "FOO" "http://x")
  = Ok sample_Metadata_with_authority.
Proof.
  apply (Metadata_new_keeps_arguments (Some (toBuffer (sample_key 1)))
           (toBuffer (sample_key 2)) "Foo" "FOO" "http://x").
  - reflexivity.
  - by intros b [= <-].
Defined.

(** ** The order of the cache *)

(** X7: [findOrCreateAccountByMint] takes the first acceptable account in
    the cache's order.  For a mint other than the wrapped-native mint, if
    every id listed before some id is rejected (no account behind it,
    another mint or owner, or an excluded key) and that id's account is
    accepted, the call returns this account's key and leaves the store as
    it was, whatever comes later in the cache. *)
Theorem findOrCreateAccountByMint_first_accepted (E : Externals) (σ : Store)
    (payer owner mint : PublicKey) (instructions cleanupInstructions signers : nat)
    (accountRentExempt : Z) (excluded : option (gset string))
    (before after : list string) (id : string) (acc : TokenAccount.t) :
  toBase58 E mint ≠ toBase58 E (WRAPPED_SOL_MINT E) →
  byParser_TokenAccountParser (cache σ) = before ++ id :: after →
  (∀ i, i ∈ before →
        account_matches E (toBase58 E mint) owner excluded (cache_get (cache σ) i)
        = false) →
  cache_get (cache σ) id = Some acc →
  account_matches E (toBase58 E mint) owner excluded (Some acc) = true →
  findOrCreateAccountByMint E payer owner instructions cleanupInstructions
    accountRentExempt mint signers excluded σ
  = (Ok (TokenAccount.pubkey acc), σ).
Proof.
  intros Hm Hids Hbefore Hget Hacc.
  unfold findOrCreateAccountByMint, read_cache. m_unfold.
  rewrite Hids.
  assert (List.find (account_matches E (toBase58 E mint) owner excluded)
            (map (cache_get (cache σ)) (before ++ id :: after)) = Some (Some acc)) as ->.
  { clear Hids. induction before as [| i before IH]; simpl.
    - by rewrite Hget, Hacc.
    - rewrite Hbefore by constructor. apply IH. intros j Hj. apply Hbefore.
      by constructor. }
  cbn [mjoin option_join]. by rewrite (bool_decide_eq_false_2 _ Hm).
Qed.

Lemma findOrCreateAccountByMint_first_accepted_witness :
  findOrCreateAccountByMint sample_externals sample_payer sample_owner 0 1 7
    (sample_key 40) 0 (Some sample_excluded) (sample_store2 (sample_key 40))
  = (Ok (sample_key 31), sample_store2 (sample_key 40)).
Proof.
  apply (findOrCreateAccountByMint_first_accepted sample_externals
           (sample_store2 (sample_key 40)) sample_payer sample_owner (sample_key 40)
           0 1 0 7 (Some sample_excluded) ["gone"; "a"] [] "b"
           (sample_account2 (sample_key 40))).
  - by vm_compute.
  - reflexivity.
  - intros i Hi. apply elem_of_cons in Hi as [-> | Hi]; [by vm_compute |].
    apply elem_of_cons in Hi as [-> | Hi]; [by vm_compute |].
    by apply elem_of_nil in Hi.
  - reflexivity.
  - by vm_compute.
Defined.
